(** * catobase: a shallow embedding of [catostruct.go]

    The package tags files with category labels.  A category listing is a
    text file with one label per line; the registry is the append-only file
    [.catodb], one record [path|cat1,cat2,...|timestamp] per line.

    The embedding follows the Go source function by function.  The file
    system is a finite map from path names to nodes, the wall clock is a
    counter into a stream of clock readings, and every function that touches
    either is written in a state-and-error monad over that world.  The
    standard-library pieces the package calls ([os], [bufio.Scanner],
    [strings.Split], [time.Format], [io.Copy]) are modelled next to their
    callers; [regexp] and the order in which [filepath.Walk] visits a tree
    are kept abstract as section variables.

    What the world does not hold is outside the model: permissions, full
    disks, the directory a path lies in.  What the package itself does with
    the bytes it reads is inside it, including the line scanner's limit on
    the length of a line. *)

From Stdlib Require Import ZArith NArith Ascii String DecimalString List Bool Lia.
From stdpp Require Import base gmap strings list fin_maps.

Local Open Scope string_scope.
Local Open Scope list_scope.

(* stdpp blocks [simpl] on string append; the proofs below compute with it. *)
#[local] Arguments String.append !_ _ / : simpl nomatch.

(** ** Errors *)

Module Go.

(** The error numbers the model distinguishes. *)
Inductive Errno := ENOENT | EEXIST | EISDIR.

(** Go [error] values that can reach a caller of the package. *)
Inductive error :=
| errors_New (msg : string)                     (* errors.New(msg) *)
| PathError (op path : string) (e : Errno)      (* *fs.PathError from package os *)
| Errorf_w (prefix : string) (wrapped : error)  (* fmt.Errorf(prefix + ": %w", err) *)
| bufio_ErrTooLong                              (* bufio.ErrTooLong *)
| regexp_Error (pattern : string)               (* *syntax.Error from regexp.Compile *)
| walk_Error (tag : string).                    (* an error Walk hands to its callback *)



(** [errors.Is(err, os.ErrExist)] and [errors.Is(err, os.ErrNotExist)]:
    both unwrap [%w] chains and compare the error number. *)
Fixpoint is_ErrExist (e : error) : bool :=
  match e with
  | PathError _ _ EEXIST => true
  | Errorf_w _ w => is_ErrExist w
  | _ => false
  end.

Fixpoint is_ErrNotExist (e : error) : bool :=
  match e with
  | PathError _ _ ENOENT => true
  | Errorf_w _ w => is_ErrNotExist w
  | _ => false
  end.

(** A Go result pair [(v, err)]: the package returns the zero value of [v]
    whenever [err] is not nil, so the pair is a sum. *)
Inductive result (A : Type) :=
| Ok (a : A)
| Err (e : error).
Arguments Ok {A} a.
Arguments Err {A} e.

Definition is_Ok {A} (r : result A) : bool :=
  match r with Ok _ => true | Err _ => false end.

End Go.
Export Go.

(** ** Bytes and strings *)

Definition LF : ascii := "010"%char.
Definition CR : ascii := "013"%char.
Definition newline : string := String LF "".
Arguments newline : simpl never.

(** [strings.Split(s, sep)] for a one-byte separator, the only kind the
    package uses: the fields between successive separators, always at least
    one field. *)
Fixpoint Split (sep : ascii) (s : string) : list string :=
  match s with
  | EmptyString => [""]
  | String c s' =>
      if Ascii.eqb c sep then "" :: Split sep s'
      else match Split sep s' with
           | [] => [String c ""]
           | p :: ps => String c p :: ps
           end
  end.

(** [bufio.ScanLines] applied until the input is used up: a line ends at
    each LF, and a last line without LF counts only when it is not empty.
    The lines still carry their trailing CR. *)
Fixpoint ScanLines (data : string) : list string :=
  match data with
  | EmptyString => []
  | String c rest =>
      if Ascii.eqb c LF then "" :: ScanLines rest
      else match ScanLines rest with
           | [] => [String c ""]
           | l :: ls => String c l :: ls
           end
  end.

(** [dropCR]: one trailing carriage return is removed. *)
Fixpoint dropCR (s : string) : string :=
  match s with
  | EmptyString => ""
  | String c EmptyString => if Ascii.eqb c CR then "" else s
  | String c s' => String c (dropCR s')
  end.

Fixpoint lenN (s : string) : N :=
  match s with
  | EmptyString => 0%N
  | String _ s' => N.succ (lenN s')
  end.

(** [bufio.MaxScanTokenSize]: the scanner's buffer stops growing at 64 KiB;
    a line that does not fit in it, LF included, ends the scan with
    [ErrTooLong]. *)
Definition MaxScanTokenSize : N := 65536.

(** The tokens a [bufio.Scanner] yields from the raw lines, and the value of
    [scanner.Err()] once [Scan] has returned false. *)
Fixpoint scan_tokens (raw : list string) : list string * option error :=
  match raw with
  | [] => ([], None)
  | l :: rest =>
      if (MaxScanTokenSize <=? lenN l)%N then ([], Some bufio_ErrTooLong)
      else let '(ts, e) := scan_tokens rest in (dropCR l :: ts, e)
  end.

Definition scan_data (data : string) : list string * option error :=
  scan_tokens (ScanLines data).

(** What the package writes for a list of lines: each followed by LF. *)
Fixpoint unlines (ls : list string) : string :=
  match ls with
  | [] => ""
  | l :: ls' => l +:+ newline +:+ unlines ls'
  end.

(** ** Wall-clock time *)

(** The civil fields of a [time.Time], as [t.Date()], [t.Clock()] and
    [t.Zone()] report them; [zoneOffset] is in seconds east of UTC. *)
Record time_Time := mkTime {
  year : Z; month : Z; day : Z;
  hour : Z; minute : Z; second : Z;
  zoneOffset : Z
}.

Definition digit (n : N) : ascii := ascii_of_N (48 + n mod 10).
Definition tensDigit (u : N) : ascii := digit (u / 10).
Definition onesDigit (u : N) : ascii := digit u.

Definition zeros (n : nat) : string := string_of_list_ascii (repeat "0"%char n).

Definition utoa (u : N) : string := NilZero.string_of_uint (N.to_uint u).

(** [appendInt] of package time: decimal, zero-padded to [width], with the
    two fast paths for two and four digit fields. *)
Definition appendInt (x : Z) (width : N) : string :=
  let u := Z.abs_N x in
  (if (x <? 0)%Z then "-" else "") +:+
  (if (width =? 2)%N && (u <? 100)%N then
     String (tensDigit u) (String (onesDigit u) "")
   else if (width =? 4)%N && (u <? 10000)%N then
     String (tensDigit (u / 100)) (String (onesDigit (u / 100))
       (String (tensDigit (u mod 100)) (String (onesDigit (u mod 100)) "")))
   else
     let s := utoa u in
     zeros (N.to_nat width - String.length s) +:+ s).

(** [t.Format(time.RFC3339)], layout [2006-01-02T15:04:05Z07:00]. *)
Definition Format_RFC3339 (t : time_Time) : string :=
  appendInt (year t) 4 +:+ "-" +:+ appendInt (month t) 2 +:+ "-" +:+
  appendInt (day t) 2 +:+ "T" +:+
  appendInt (hour t) 2 +:+ ":" +:+ appendInt (minute t) 2 +:+ ":" +:+
  appendInt (second t) 2 +:+
  (if (zoneOffset t =? 0)%Z then "Z"
   else
     let zone := (zoneOffset t ÷ 60)%Z in
     (if (zone <? 0)%Z then "-" else "+") +:+
     appendInt (Z.abs zone ÷ 60) 2 +:+ ":" +:+ appendInt (Z.rem (Z.abs zone) 60) 2).

(** Clock readings [time.Now()] can return: a civil date and time of day
    with a four-digit year and a zone offset of less than a day. *)
Definition valid_time (t : time_Time) : Prop :=
  (0 <= year t <= 9999 /\ 1 <= month t <= 12 /\ 1 <= day t <= 31 /\
   0 <= hour t <= 23 /\ 0 <= minute t <= 59 /\ 0 <= second t <= 59 /\
   -86400 < zoneOffset t < 86400)%Z.

(** A recogniser for the RFC 3339 [date-time] production:
    [DDDD-DD-DDTDD:DD:DD] followed by [Z] or [+DD:DD] or [-DD:DD], with the
    month, day, hour, minute and second fields in range. *)
Definition is_digit (c : ascii) : bool :=
  let n := N_of_ascii c in (48 <=? n)%N && (n <=? 57)%N.

Definition digit_val (c : ascii) : N := N_of_ascii c - 48.

Definition two_digits (a b : ascii) (lo hi : N) : bool :=
  is_digit a && is_digit b &&
  let v := (10 * digit_val a + digit_val b)%N in (lo <=? v)%N && (v <=? hi)%N.

Definition is_rfc3339_offset (s : string) : bool :=
  match list_ascii_of_string s with
  | ["Z"%char] => true
  | [sg; h1; h2; ":"%char; m1; m2] =>
      (Ascii.eqb sg "+" || Ascii.eqb sg "-") &&
      two_digits h1 h2 0 23 && two_digits m1 m2 0 59
  | _ => false
  end.

Definition is_rfc3339 (s : string) : bool :=
  match list_ascii_of_string s with
  | y1 :: y2 :: y3 :: y4 :: "-"%char :: mo1 :: mo2 :: "-"%char :: d1 :: d2 ::
    "T"%char :: h1 :: h2 :: ":"%char :: mi1 :: mi2 :: ":"%char :: s1 :: s2 :: off =>
      is_digit y1 && is_digit y2 && is_digit y3 && is_digit y4 &&
      two_digits mo1 mo2 1 12 && two_digits d1 d2 1 31 &&
      two_digits h1 h2 0 23 && two_digits mi1 mi2 0 59 && two_digits s1 s2 0 59 &&
      is_rfc3339_offset (string_of_list_ascii off)
  | _ => false
  end.

(** ** The world: files and clock *)

(** A path names a regular file with its bytes, or a directory.  Paths are
    opaque resource names: two different strings are two different
    resources. *)
Inductive node :=
| Reg (data : string)
| Dir.

Record World := mkWorld {
  files : gmap string node;   (* the file system *)
  ticks : nat                 (* how often the clock has been read *)
}.

Definition set_files (w : World) (fs : gmap string node) : World :=
  {| files := fs; ticks := ticks w |}.

Definition tick (w : World) : World :=
  {| files := files w; ticks := S (ticks w) |}.

(** Code that may change the world and may fail: the world after the call
    comes back in both cases, since what was written before an error stays
    written. *)
Definition M (A : Type) : Type := World -> World * result A.

Definition ret {A} (a : A) : M A := fun w => (w, Ok a).
Definition fail {A} (e : error) : M A := fun w => (w, Err e).

Definition bind {A B} (m : M A) (k : A -> M B) : M B :=
  fun w => match m w with
           | (w', Ok a) => k a w'
           | (w', Err e) => (w', Err e)
           end.

Notation "'let*' x := m 'in' k" := (bind m (fun x => k))
  (at level 10, x pattern, m at level 100, k at level 200).

(** [if err != nil { return ..., f(err) }] around a call. *)
Definition on_error {A} (f : error -> error) (m : M A) : M A :=
  fun w => match m w with
           | (w', Ok a) => (w', Ok a)
           | (w', Err e) => (w', Err (f e))
           end.

Definition lift {A} (r : result A) : M A := fun w => (w, r).

(** [for _, x := range xs { if err := body(x); err != nil { return err } }] *)
Fixpoint for_each {A} (body : A -> M unit) (xs : list A) : M unit :=
  match xs with
  | [] => ret tt
  | x :: rest => let* _ := body x in for_each body rest
  end.

(** *** Package os *)

Inductive flag := O_WRONLY | O_RDWR | O_CREATE | O_EXCL | O_TRUNC | O_APPEND.

Definition flag_eqb (a b : flag) : bool :=
  match a, b with
  | O_WRONLY, O_WRONLY | O_RDWR, O_RDWR | O_CREATE, O_CREATE
  | O_EXCL, O_EXCL | O_TRUNC, O_TRUNC | O_APPEND, O_APPEND => true
  | _, _ => false
  end.

Definition has (f : flag) (flags : list flag) : bool := existsb (flag_eqb f) flags.

(** An open [*os.File] is identified by the path it was opened on; reads
    and writes through it act on the file system as it is at that
    moment. *)
Abbreviation File := string (only parsing).

(** [os.Open(name)]: read-only; directories can be opened too. *)
Definition os_Open (name : string) : M File :=
  fun w => match files w !! name with
           | None => (w, Err (PathError "open" name ENOENT))
           | Some _ => (w, Ok name)
           end.

(** [os.OpenFile(name, flags, 0644)] for writing. *)
Definition os_OpenFile (name : string) (flags : list flag) : M File :=
  fun w => match files w !! name with
           | None =>
               if has O_CREATE flags
               then (set_files w (<[name := Reg ""]> (files w)), Ok name)
               else (w, Err (PathError "open" name ENOENT))
           | Some Dir =>
               if has O_CREATE flags && has O_EXCL flags
               then (w, Err (PathError "open" name EEXIST))
               else (w, Err (PathError "open" name EISDIR))
           | Some (Reg _) =>
               if has O_CREATE flags && has O_EXCL flags
               then (w, Err (PathError "open" name EEXIST))
               else if has O_TRUNC flags
               then (set_files w (<[name := Reg ""]> (files w)), Ok name)
               else (w, Ok name)
           end.

(** [os.Create(name)] is [OpenFile(name, O_RDWR|O_CREATE|O_TRUNC, 0666)]. *)
Definition os_Create (name : string) : M File :=
  os_OpenFile name [O_RDWR; O_CREATE; O_TRUNC].

(** [f.WriteString(s)].  Every handle the package writes through is either
    in append mode or was created or truncated by the open that made it and
    is written front to back, so each write lands at the end of the file. *)
Definition WriteString (f : File) (s : string) : M unit :=
  fun w => match files w !! f with
           | Some (Reg data) => (set_files w (<[f := Reg (data +:+ s)]> (files w)), Ok tt)
           | Some Dir => (w, Err (PathError "write" f EISDIR))
           | None => (w, Err (PathError "write" f ENOENT))
           end.

(** [io.Copy(dst, src)]: all bytes of [src]; reading a directory fails. *)
Definition io_Copy (dst src : File) : M unit :=
  fun w => match files w !! src with
           | Some (Reg data) => WriteString dst data w
           | Some Dir => (w, Err (PathError "read" src EISDIR))
           | None => (w, Err (PathError "read" src ENOENT))
           end.

(** A [bufio.Scanner] on an open file run until [Scan] returns false: the
    tokens it yielded and its [Err()]. *)
Definition Scanner_run (f : File) : M (list string * option error) :=
  fun w => match files w !! f with
           | Some (Reg data) => (w, Ok (scan_data data))
           | Some Dir => (w, Ok ([], Some (PathError "read" f EISDIR)))
           | None => (w, Ok ([], Some (PathError "read" f ENOENT)))
           end.

(** [if err := scanner.Err(); err != nil { return ..., err }] *)
Definition Scanner_Err (e : option error) : M unit :=
  match e with
  | None => ret tt
  | Some err => fail err
  end.

(** One call [filepath.Walk] makes to its callback: either an entry with
    its [FileInfo] ([Name()] is the base name), or a path it could not
    inspect together with the error. *)
Record FileInfo := mkInfo { Name : string; IsDir : bool }.

Inductive Visit :=
| Entry (path : string) (info : FileInfo)
| Failed (path : string) (err : error).

(** ** A concrete pattern matcher, clock and worlds for the examples *)

(** Patterns without metacharacters match exactly the strings that contain
    them; [literal_match] is that fragment of [regexp]. *)
Fixpoint has_prefix (p s : string) : bool :=
  match p, s with
  | EmptyString, _ => true
  | String a p', String b s' => Ascii.eqb a b && has_prefix p' s'
  | String _ _, EmptyString => false
  end.

Fixpoint literal_match (p s : string) : bool :=
  has_prefix p s ||
  match s with
  | EmptyString => false
  | String _ s' => literal_match p s'
  end.

(** The pattern [(], an unmatched parenthesis, does not compile. *)
Definition literal_compile (p : string) : result string :=
  if String.eqb p "(" then Err (regexp_Error p) else Ok p.

(** A clock that shows one second more each time it is read. *)
Definition example_clock (n : nat) : time_Time :=
  mkTime 2023 7 1 0 0 (Z.of_nat (n mod 60)) 0.

(** *** The worlds of the package's tests *)

Definition lines2 (a b : string) : string := a +:+ newline +:+ b +:+ newline.

(** [TestRegisterFile]: a subject with two lines and an empty registry. *)
Definition register_world : World :=
  mkWorld (<[".catodb" := Reg ""]>
           (<["test_register_file.txt" := Reg (lines2 "Books" "Movies")]> ∅)) 0.

(** [TestRegisterFile] without the registry. *)
Definition no_registry_world : World :=
  mkWorld (<["test_register_file.txt" := Reg (lines2 "Books" "Movies")]> ∅) 0.


(** [TestDeleteCategory]: a listing of three labels. *)
Definition listing_world : World :=
  mkWorld (<["test_delete_category.txt" :=
             Reg ("Books" +:+ newline +:+ "Movies" +:+ newline +:+ "Music" +:+ newline)]> ∅) 0.

(** [TestGet]: a registry of two records. *)
Definition get_world : World :=
  mkWorld (<[".catodb" := Reg (lines2 "/path/to/file1|Books,Movies|2023-07-01T00:00:00Z"
                                      "/path/to/file2|Music,Games|2023-07-01T00:00:00Z")]> ∅) 0.

(** [TestRegisterFiles]: a folder with two listings and an empty registry,
    and the order in which [filepath.Walk] visits the folder. *)
Definition folder_world : World :=
  mkWorld (<[".catodb" := Reg ""]>
           (<["test_folder" := Dir]>
           (<["test_folder/file1.txt" := Reg (lines2 "Books" "Movies")]>
           (<["test_folder/file2.txt" := Reg (lines2 "Music" "Games")]> ∅)))) 0.

Definition folder_visits : list Visit :=
  [Entry "test_folder" (mkInfo "test_folder" true);
   Entry "test_folder/file1.txt" (mkInfo "file1.txt" false);
   Entry "test_folder/file2.txt" (mkInfo "file2.txt" false)].

(** The same walk when the second file cannot be inspected. *)
Definition broken_visits : list Visit :=
  [Entry "test_folder" (mkInfo "test_folder" true);
   Entry "test_folder/file1.txt" (mkInfo "file1.txt" false);
   Failed "test_folder/file2.txt" (walk_Error "lstat test_folder/file2.txt: permission denied")].

(** A line of 70000 bytes, more than a scanner takes, and a file made of it. *)
Definition long_line : string := N.iter 70000 (String "a"%char) "".

Definition long_world (name : string) : World :=
  mkWorld (<[name := Reg (long_line +:+ newline)]> ∅) 0.

(** ** The package *)

Section Catobase.

(** Package regexp. *)
Variable Regexp : Type.
Variable regexp_Compile : string -> result Regexp.
Variable MatchString : Regexp -> string -> bool.

(** The successive readings of the wall clock. *)
Variable wall_clock : nat -> time_Time.

(** The calls [filepath.Walk] makes on a root, in its traversal order, as
    long as the callback keeps returning nil. *)
Variable traversal : gmap string node -> string -> list Visit.

(** [time.Now()]: the next reading of the clock. *)
Definition time_Now : M time_Time :=
  fun w => (tick w, Ok (wall_clock (ticks w))).

(** The callback the package passes never returns [SkipDir], so [Walk]
    stops at the first error the callback returns and returns it.  [st] is
    the state the callback closes over. *)
Fixpoint Walk_loop {S} (fn : Visit -> S -> M S) (vs : list Visit) (st : S) : M S :=
  match vs with
  | [] => ret st
  | v :: rest => let* st' := fn v st in Walk_loop fn rest st'
  end.

Definition filepath_Walk {S} (root : string) (fn : Visit -> S -> M S) (st : S) : M S :=
  fun w => Walk_loop fn (traversal (files w) root) st w.

(** [CreateCategory] *)
Definition CreateCategory (categories : list string) (fileName : string) : M bool :=
  let* f := on_error
              (fun err => if is_ErrExist err then errors_New "file already exists" else err)
              (os_OpenFile fileName [O_CREATE; O_EXCL; O_WRONLY]) in
  let* _ := for_each (fun category => WriteString f (category +:+ newline)) categories in
  ret true.

(** [checkFileExists] *)
Definition checkFileExists (filename : string) : M File :=
  on_error
    (fun err => if is_ErrNotExist err then errors_New "file does not exist" else err)
    (os_Open filename).

(** [DeleteCategory] *)
Definition DeleteCategory (categoryToRemove fileName : string) : M bool :=
  let* file := checkFileExists fileName in
  let* (tokens, scanErr) := Scanner_run file in
  let categories :=
    fold_left (fun categories category =>
                 if negb (String.eqb category categoryToRemove)
                 then categories ++ [category] else categories)
              tokens [] in
  let* _ := Scanner_Err scanErr in
  let* f := os_OpenFile fileName [O_TRUNC; O_WRONLY] in
  let* _ := for_each (fun category => WriteString f (category +:+ newline)) categories in
  ret true.

(** The loop of [format] that builds [cat]: [index] is the loop index and
    [len] is [len(categories)]. *)
Fixpoint format_cat (cat : string) (index len : nat) (rest : list string) : string :=
  match rest with
  | [] => cat
  | category :: rest' =>
      let cat := cat +:+ category in
      let cat := if (index + 1 <? len)%nat then cat +:+ "," else cat in
      format_cat cat (S index) len rest'
  end.

(** [format] *)
Definition format (path : string) (categories : list string) (separator : string) : M string :=
  let separator := if String.eqb separator "" then "|" else separator in
  let cat := format_cat "" 0 (length categories) categories in
  let* t := time_Now in
  ret (path +:+ separator +:+ cat +:+ separator +:+ Format_RFC3339 t).

(** [readFile] *)
Definition readFile (fileName : string) : M (list string) :=
  let* file := os_Open fileName in
  let* (tokens, scanErr) := Scanner_run file in
  let lines := fold_left (fun lines line => lines ++ [line]) tokens [] in
  let* _ := Scanner_Err scanErr in
  ret lines.

(** The body of [if copy { ... }] in [registerFile]: [file] is the handle
    opened on [fileName]. *)
Definition snapshot (fileName : string) (file : File) : M unit :=
  let destinationFile := fileName +:+ ".copy" in
  let* dst := on_error (Errorf_w "failed to create copy of file")
                (os_Create destinationFile) in
  on_error (Errorf_w "failed to copy file") (io_Copy dst file).

(** [registerFile] *)
Definition registerFile (fileName : string) (categories : list string) (copy : bool) : M bool :=
  let* file := checkFileExists fileName in
  let* formatted := format fileName categories "" in
  let* db := on_error (Errorf_w "failed to open .catodb for writing")
               (os_OpenFile ".catodb" [O_APPEND; O_WRONLY]) in
  let* _ := if copy then snapshot fileName file else ret tt in
  let* _ := on_error (Errorf_w "failed to write to .catodb")
              (WriteString db (formatted +:+ newline)) in
  ret true.

(** The function literal [registerFiles] hands to [filepath.Walk]; the
    slice [registeredFiles] it appends to is the walk state. *)
Definition registerFiles_visit (re : Regexp) (v : Visit) (registeredFiles : list string)
  : M (list string) :=
  match v with
  | Failed _ err => fail err
  | Entry path info =>
      if negb (IsDir info) && MatchString re (Name info) then
        let* categories := readFile path in
        let* success := registerFile path categories true in
        if (success : bool) then ret (registeredFiles ++ [path]) else ret registeredFiles
      else ret registeredFiles
  end.

(** [registerFiles] *)
Definition registerFiles (folder regex : string) : M (list string) :=
  let* re := lift (regexp_Compile regex) in
  let* registeredFiles := filepath_Walk folder (registerFiles_visit re) [] in
  ret registeredFiles.

(** [containsAll]: [setMap] is the Go map used as a set. *)
Fixpoint all_present (setMap : gset string) (subset : list string) : bool :=
  match subset with
  | [] => true
  | s :: rest => if bool_decide (s ∈ setMap) then all_present setMap rest else false
  end.

Definition containsAll (set subset : list string) : bool :=
  let setMap := fold_left (fun (m : gset string) s => {[s]} ∪ m) set ∅ in
  all_present setMap subset.

(** The body of the scan loop of [get] for one line. *)
Definition get_line (re : Regexp) (categories : list string)
    (matches : list string) (line : string) : list string :=
  let parts := Split "|" line in
  if (length parts <? 3)%nat then matches
  else
    let path := nth 0 parts "" in
    let fileCategories := Split "," (nth 1 parts "") in
    if MatchString re path && containsAll fileCategories categories
    then matches ++ [path] else matches.

(** [get] *)
Definition get (regex : string) (categories : list string) : M (list string) :=
  let* db := checkFileExists ".catodb" in
  let* re := lift (regexp_Compile regex) in
  let* (tokens, scanErr) := Scanner_run db in
  let matches := fold_left (get_line re categories) tokens [] in
  let* _ := Scanner_Err scanErr in
  ret matches.

(** ** Specification-side definitions *)

(** A byte occurs in a string. *)
Fixpoint has_byte (c : ascii) (s : string) : bool :=
  match s with
  | EmptyString => false
  | String a s' => Ascii.eqb a c || has_byte c s'
  end.

Fixpoint last_byte (s : string) : option ascii :=
  match s with
  | EmptyString => None
  | String c EmptyString => Some c
  | String _ s' => last_byte s'
  end.

(** Every line of the data fits the scanner's buffer. *)
Definition lines_fit (data : string) : Prop :=
  Forall (fun l => (lenN l < MaxScanTokenSize)%N) (ScanLines data).

(** The same as a test that computes. *)
Definition lines_fit_b (data : string) : bool :=
  forallb (fun l => (lenN l <? MaxScanTokenSize)%N) (ScanLines data).

(** A label survives being written and read as a line when it has no line
    feed, does not end in a carriage return and fits the scanner. *)
Definition line_safe (l : string) : Prop :=
  has_byte LF l = false /\ dropCR l = l /\ (lenN l < MaxScanTokenSize)%N.

(** The lines a scanner reads from the data when they all fit. *)
Definition lines_of (data : string) : list string := map dropCR (ScanLines data).

(** The query rule of the specification for one registry line: at least
    three [|]-separated fields, the first matches the pattern, and every
    required category is one of the [,]-separated parts of the second. *)
Definition path_field (line : string) : string := nth 0 (Split "|" line) "".
Definition category_field (line : string) : list string :=
  Split "," (nth 1 (Split "|" line) "").

Definition selects (re : Regexp) (required : list string) (line : string) : Prop :=
  (3 <= length (Split "|" line))%nat /\
  MatchString re (path_field line) = true /\
  Forall (fun c => c ∈ category_field line) required.

#[local] Instance selects_dec re required line : Decision (selects re required line).
Proof. unfold selects. apply _. Defined.

Definition get_spec (re : Regexp) (required : list string) (lines : list string) : list string :=
  map path_field (filter (selects re required) lines).

(** A line read back by the splitting rule of [get] gives this path and
    these categories. *)
Definition recovers (path : string) (categories : list string) (line : string) : Prop :=
  (3 <= length (Split "|" line))%nat /\
  path_field line = path /\
  forall c, c ∈ category_field line <-> c ∈ categories.

(** The entries of a traversal the bulk registration picks. *)
Definition chosen (re : Regexp) (info : FileInfo) : bool :=
  negb (IsDir info) && MatchString re (Name info).

Fixpoint chosen_paths (re : Regexp) (vs : list Visit) : list string :=
  match vs with
  | [] => []
  | Entry path info :: rest =>
      if chosen re info then path :: chosen_paths re rest else chosen_paths re rest
  | Failed _ _ :: rest => chosen_paths re rest
  end.

(** A run of the bulk registration over a stretch of the traversal in which
    nothing fails: an entry that is a directory or whose base name does not
    match is passed over; any other entry is registered with the lines of
    the file itself as categories and with a snapshot. *)
Inductive bulk_ok (re : Regexp) : list Visit -> World -> World -> list string -> Prop :=
| bulk_done w : bulk_ok re [] w w []
| bulk_pass path info vs w w' ps :
    chosen re info = false ->
    bulk_ok re vs w w' ps ->
    bulk_ok re (Entry path info :: vs) w w' ps
| bulk_register path info vs w categories w1 w' ps :
    chosen re info = true ->
    readFile path w = (w, Ok categories) ->
    registerFile path categories true w = (w1, Ok true) ->
    bulk_ok re vs w1 w' ps ->
    bulk_ok re (Entry path info :: vs) w w' (path :: ps).

(** The ways one visit makes the bulk registration fail. *)
Inductive visit_fails (re : Regexp) : Visit -> World -> World -> error -> Prop :=
| fails_traversal path e w :
    visit_fails re (Failed path e) w w e
| fails_read path info w e :
    chosen re info = true ->
    readFile path w = (w, Err e) ->
    visit_fails re (Entry path info) w w e
| fails_register path info w categories w' e :
    chosen re info = true ->
    readFile path w = (w, Ok categories) ->
    registerFile path categories true w = (w', Err e) ->
    visit_fails re (Entry path info) w w' e.

(** ** The helpers of the test file *)


(** [matchesFormat]: [result[:len(expectedPrefix)] == expectedPrefix] for a
    result longer than the prefix. *)
Definition matchesFormat (result expectedPrefix : string) : bool :=
  if (String.length result <=? String.length expectedPrefix)%nat then false
  else String.eqb (substring 0 (String.length expectedPrefix) result) expectedPrefix.

(** ** Further specification-side definitions *)


(** A line that reads the same after the scanner has dropped a carriage
    return from it. *)
Definition cr_free (l : string) : Prop := dropCR l = l.

(** One list is the other with some elements left out. *)
Abbreviation kept_from := (@sublist string).

(** The bytes a formatted clock reading is made of. *)
Definition stamp_byte (c : ascii) : Prop :=
  is_digit c = true \/ c = "-"%char \/ c = "T"%char \/ c = ":"%char \/
  c = "Z"%char \/ c = "+"%char.

(** A file that is empty or ends in a line feed: what is appended to it
    starts a new line. *)
Definition terminated (data : string) : Prop :=
  data = "" \/ last_byte data = Some LF.

(** ** Strings, lines and fields *)

Lemma append_nil_r (s : string) : s +:+ "" = s.
Proof. induction s as [|c s IH]; simpl; [reflexivity | now rewrite IH]. Qed.

Lemma append_assoc (a b c : string) : (a +:+ b) +:+ c = a +:+ (b +:+ c).
Proof. induction a as [|x a IH]; simpl; [reflexivity | now rewrite IH]. Qed.

Lemma unlines_app (xs ys : list string) : unlines (xs ++ ys) = unlines xs +:+ unlines ys.
Proof.
  induction xs as [|x xs IH]; simpl; [reflexivity |].
  now rewrite IH, !append_assoc.
Qed.

Lemma fold_left_snoc {A} (P : A -> bool) (xs acc : list A) :
  fold_left (fun acc x => if P x then acc ++ [x] else acc) xs acc = acc ++ List.filter P xs.
Proof.
  revert acc. induction xs as [|x xs IH]; intros acc; simpl.
  - now rewrite List.app_nil_r.
  - rewrite IH. destruct (P x); [| reflexivity].
    now rewrite <- List.app_assoc.
Qed.

Lemma fold_left_copy {A} (xs acc : list A) :
  fold_left (fun acc x => acc ++ [x]) xs acc = acc ++ xs.
Proof.
  revert acc. induction xs as [|x xs IH]; intros acc; simpl.
  - now rewrite List.app_nil_r.
  - rewrite IH. now rewrite <- List.app_assoc.
Qed.

(** When every line fits, the scanner yields all lines and no error. *)
Lemma scan_tokens_fit (raw : list string) :
  Forall (fun l => (lenN l < MaxScanTokenSize)%N) raw ->
  scan_tokens raw = (map dropCR raw, None).
Proof.
  induction 1 as [|l raw Hl _ IH]; simpl; [reflexivity |].
  destruct (N.leb_spec MaxScanTokenSize (lenN l)) as [Hle|_]; [lia |].
  now rewrite IH.
Qed.

Lemma scan_data_fit (data : string) :
  lines_fit data -> scan_data data = (lines_of data, None).
Proof. apply scan_tokens_fit. Qed.

(** A line that does not fit makes the scan end in [ErrTooLong]. *)
Lemma scan_tokens_too_long (raw : list string) :
  Exists (fun l => (MaxScanTokenSize <= lenN l)%N) raw ->
  snd (scan_tokens raw) = Some bufio_ErrTooLong.
Proof.
  induction 1 as [l raw Hl|l raw _ IH]; simpl.
  - destruct (N.leb_spec MaxScanTokenSize (lenN l)); [reflexivity | lia].
  - destruct (N.leb_spec MaxScanTokenSize (lenN l)); [reflexivity |].
    destruct (scan_tokens raw); simpl in *; assumption.
Qed.

(** ** Writing lines to a file *)

Lemma files_set_files w fs : files (set_files w fs) = fs.
Proof. reflexivity. Qed.

Lemma set_files_twice w fs fs' : set_files (set_files w fs) fs' = set_files w fs'.
Proof. reflexivity. Qed.

Lemma set_files_same w : set_files w (files w) = w.
Proof. now destruct w. Qed.

Lemma WriteString_regular f s w data :
  files w !! f = Some (Reg data) ->
  WriteString f s w = (set_files w (<[f := Reg (data +:+ s)]> (files w)), Ok tt).
Proof. intros H. unfold WriteString. now rewrite H. Qed.

(** Writing the lines one by one appends [unlines] of them. *)
Lemma write_lines f (ls : list string) : forall w data,
  files w !! f = Some (Reg data) ->
  for_each (fun l => WriteString f (l +:+ newline)) ls w =
  (set_files w (<[f := Reg (data +:+ unlines ls)]> (files w)), Ok tt).
Proof.
  induction ls as [|l ls IH]; intros w data H; simpl.
  - rewrite append_nil_r, insert_id by exact H.
    unfold ret. now rewrite set_files_same.
  - unfold bind. rewrite (WriteString_regular _ _ _ _ H).
    rewrite (IH _ (data +:+ l +:+ newline)).
    + rewrite set_files_twice, files_set_files, insert_insert_eq.
      now rewrite !append_assoc.
    + rewrite files_set_files. apply lookup_insert_eq.
Qed.

(** ** Category listings: [CreateCategory] *)

Lemma CreateCategory_fresh categories fileName w :
  files w !! fileName = None ->
  CreateCategory categories fileName w =
  (set_files w (<[fileName := Reg (unlines categories)]> (files w)), Ok true).
Proof.
  intros H. unfold CreateCategory, bind, on_error, os_OpenFile. rewrite H. simpl.
  rewrite (write_lines _ _ _ "").
  - rewrite set_files_twice, files_set_files, insert_insert_eq. reflexivity.
  - rewrite files_set_files. apply lookup_insert_eq.
Qed.



(** ** Reading lines back *)

Lemma ScanLines_line (l rest : string) :
  has_byte LF l = false ->
  ScanLines (l +:+ newline +:+ rest) = l :: ScanLines rest.
Proof.
  induction l as [|c l IH]; simpl; intros H; [reflexivity |].
  apply orb_false_iff in H as [Hc Hl].
  rewrite Hc. change (String LF rest) with (newline +:+ rest).
  rewrite (IH Hl). reflexivity.
Qed.

Lemma ScanLines_unlines (ls : list string) :
  Forall (fun l => has_byte LF l = false) ls -> ScanLines (unlines ls) = ls.
Proof.
  induction 1 as [|l ls Hl _ IH]; cbn [unlines]; [reflexivity |].
  now rewrite (ScanLines_line _ _ Hl), IH.
Qed.

Lemma not_lines_fit (data : string) :
  ~ lines_fit data -> exists ts, scan_data data = (ts, Some bufio_ErrTooLong).
Proof.
  intros H. unfold lines_fit in H.
  apply not_Forall_Exists in H; [| intros l; apply _].
  assert (He : Exists (fun l => (MaxScanTokenSize <= lenN l)%N) (ScanLines data)).
  { eapply Exists_impl; [exact H |]. simpl. intros l Hl. lia. }
  apply scan_tokens_too_long in He. unfold scan_data.
  destruct (scan_tokens (ScanLines data)) as [ts e]. simpl in He. subst e. now exists ts.
Qed.

Lemma filter_differs (label : string) (ls : list string) :
  List.filter (fun l => negb (String.eqb l label)) ls = filter (fun l => l <> label) ls.
Proof.
  induction ls as [|l ls IH]; [reflexivity |].
  simpl. rewrite filter_cons, IH.
  destruct (String.eqb_spec l label) as [->|Hne]; simpl.
  - now rewrite decide_False by (intros Hc; now apply Hc).
  - now rewrite decide_True by exact Hne.
Qed.

Lemma filter_absent (label : string) (ls : list string) :
  label ∉ ls -> filter (fun l => l <> label) ls = ls.
Proof.
  induction ls as [|l ls IH]; intros H; [reflexivity |].
  apply not_elem_of_cons in H as [Hne Hin].
  rewrite filter_cons, decide_True by (intros ->; now apply Hne).
  now rewrite (IH Hin).
Qed.

(** ** Category listings: [DeleteCategory] *)

Lemma checkFileExists_found filename w n :
  files w !! filename = Some n -> checkFileExists filename w = (w, Ok filename).
Proof. intros H. unfold checkFileExists, on_error, os_Open. now rewrite H. Qed.

Lemma checkFileExists_missing filename w :
  files w !! filename = None ->
  checkFileExists filename w = (w, Err (errors_New "file does not exist")).
Proof. intros H. unfold checkFileExists, on_error, os_Open. now rewrite H. Qed.

Lemma DeleteCategory_fit label fileName w data :
  files w !! fileName = Some (Reg data) ->
  lines_fit data ->
  DeleteCategory label fileName w =
  (set_files w (<[fileName := Reg (unlines (filter (fun l => l <> label) (lines_of data)))]>
                  (files w)), Ok true).
Proof.
  intros H Hfit. unfold DeleteCategory, bind.
  rewrite (checkFileExists_found _ _ _ H). cbv beta iota.
  unfold Scanner_run. rewrite H.
  rewrite (scan_data_fit _ Hfit). simpl.
  rewrite fold_left_snoc, filter_differs. simpl.
  unfold os_OpenFile. rewrite H. simpl.
  rewrite (write_lines _ _ _ "").
  - now rewrite set_files_twice, files_set_files, insert_insert_eq.
  - rewrite files_set_files. apply lookup_insert_eq.
Qed.

Lemma DeleteCategory_too_long label fileName w data :
  files w !! fileName = Some (Reg data) ->
  ~ lines_fit data ->
  DeleteCategory label fileName w = (w, Err bufio_ErrTooLong).
Proof.
  intros H Hfit. unfold DeleteCategory, bind.
  rewrite (checkFileExists_found _ _ _ H). cbv beta iota.
  unfold Scanner_run. rewrite H.
  destruct (not_lines_fit _ Hfit) as [ts ->]. reflexivity.
Qed.

Lemma DeleteCategory_missing label fileName w :
  files w !! fileName = None ->
  DeleteCategory label fileName w = (w, Err (errors_New "file does not exist")).
Proof.
  intros H. unfold DeleteCategory, bind. now rewrite (checkFileExists_missing _ _ H).
Qed.


(** ** Category listings: reading back *)

Lemma readFile_unlines fileName w (ls : list string) :
  files w !! fileName = Some (Reg (unlines ls)) ->
  Forall line_safe ls ->
  readFile fileName w = (w, Ok ls).
Proof.
  intros H Hsafe.
  assert (Hraw : ScanLines (unlines ls) = ls).
  { apply ScanLines_unlines. eapply Forall_impl; [exact Hsafe |]. now intros l (? & _). }
  assert (Hfit : lines_fit (unlines ls)).
  { unfold lines_fit. rewrite Hraw. eapply Forall_impl; [exact Hsafe |]. now intros l (_ & _ & ?). }
  assert (Hlines : lines_of (unlines ls) = ls).
  { unfold lines_of. rewrite Hraw. clear H Hraw Hfit.
    induction Hsafe as [|l ls (_ & Hl & _) _ IH]; simpl; [reflexivity |].
    now rewrite Hl, IH. }
  unfold readFile, bind, os_Open. rewrite H. cbv beta iota.
  unfold Scanner_run. rewrite H, (scan_data_fit _ Hfit), Hlines. simpl.
  now rewrite fold_left_copy.
Qed.

(** A listing just created reads back as the labels it was created from. *)
Lemma CreateCategory_then_readFile categories fileName w w1 :
  files w !! fileName = None ->
  Forall line_safe categories ->
  CreateCategory categories fileName w = (w1, Ok true) ->
  readFile fileName w1 = (w1, Ok categories).
Proof.
  intros H Hsafe Hc. rewrite (CreateCategory_fresh _ _ _ H) in Hc.
  injection Hc as <-. apply readFile_unlines; [| exact Hsafe].
  rewrite files_set_files. apply lookup_insert_eq.
Qed.

(** ** The query: [containsAll] and [get] *)

Lemma setMap_elem (set : list string) : forall (acc : gset string) (x : string),
  x ∈ fold_left (fun (m : gset string) s => {[s]} ∪ m) set acc <-> x ∈ set \/ x ∈ acc.
Proof.
  induction set as [|s set IH]; intros acc x; simpl.
  - rewrite elem_of_nil. tauto.
  - rewrite IH, elem_of_cons, elem_of_union, elem_of_singleton. tauto.
Qed.

Lemma all_present_Forall (setMap : gset string) (subset : list string) :
  all_present setMap subset = true <-> Forall (fun s => s ∈ setMap) subset.
Proof.
  induction subset as [|s subset IH]; simpl.
  - split; [constructor | reflexivity].
  - rewrite Forall_cons. destruct (bool_decide_reflect (s ∈ setMap)) as [Hin|Hout].
    + rewrite IH. tauto.
    + split; [discriminate | tauto].
Qed.

(** [containsAll set subset] holds exactly when every element of [subset]
    occurs in [set]: plain membership, whatever the order and however often
    an element is repeated. *)
Lemma containsAll_spec (set subset : list string) :
  containsAll set subset = true <-> Forall (fun s => s ∈ set) subset.
Proof.
  unfold containsAll. rewrite all_present_Forall.
  apply Forall_iff. intros x. rewrite setMap_elem, elem_of_empty. tauto.
Qed.

Lemma get_line_selects re required matches line :
  get_line re required matches line =
  if decide (selects re required line) then matches ++ [path_field line] else matches.
Proof.
  destruct (decide (selects re required line)) as [(Hlen & Hm & Hall)|Hno];
    unfold get_line; fold (path_field line); fold (category_field line).
  - destruct (Nat.ltb_spec (length (Split "|" line)) 3) as [Hlt|_]; [lia |].
    apply containsAll_spec in Hall. now rewrite Hm, Hall.
  - destruct (Nat.ltb_spec (length (Split "|" line)) 3) as [Hlt|Hge]; [reflexivity |].
    destruct (MatchString re (path_field line)) eqn:Hm; [| reflexivity].
    destruct (containsAll (category_field line) required) eqn:Hc; [| reflexivity].
    exfalso. apply Hno. apply containsAll_spec in Hc. now repeat split.
Qed.

Lemma get_loop re required (lines : list string) : forall matches,
  fold_left (get_line re required) lines matches = matches ++ get_spec re required lines.
Proof.
  unfold get_spec.
  induction lines as [|line lines IH]; intros matches; simpl.
  - now rewrite List.app_nil_r.
  - rewrite IH, get_line_selects, filter_cons.
    destruct (decide (selects re required line)); simpl; [| reflexivity].
    now rewrite <- List.app_assoc.
Qed.

Lemma get_fit regex required w data re :
  files w !! ".catodb" = Some (Reg data) ->
  regexp_Compile regex = Ok re ->
  lines_fit data ->
  get regex required w = (w, Ok (get_spec re required (lines_of data))).
Proof.
  intros H Hre Hfit. unfold get, bind.
  rewrite (checkFileExists_found _ _ _ H). cbv beta iota.
  unfold lift. rewrite Hre. unfold Scanner_run. rewrite H.
  rewrite (scan_data_fit _ Hfit). simpl.
  now rewrite get_loop.
Qed.

Lemma get_too_long regex required w data re :
  files w !! ".catodb" = Some (Reg data) ->
  regexp_Compile regex = Ok re ->
  ~ lines_fit data ->
  get regex required w = (w, Err bufio_ErrTooLong).
Proof.
  intros H Hre Hfit. unfold get, bind.
  rewrite (checkFileExists_found _ _ _ H). cbv beta iota.
  unfold lift. rewrite Hre. unfold Scanner_run. rewrite H.
  destruct (not_lines_fit _ Hfit) as [ts ->]. reflexivity.
Qed.

Lemma get_missing regex required w :
  files w !! ".catodb" = None ->
  get regex required w = (w, Err (errors_New "file does not exist")).
Proof.
  intros H. unfold get, bind. now rewrite (checkFileExists_missing _ _ H).
Qed.

(** C7, as the code has it.  When the registry exists, the pattern
    compiles and every registry line fits the line scanner's 64 KiB buffer,
    [get] changes nothing and returns, in registry order and with
    repetitions, the first field of every line that has at least three
    [|]-separated fields, whose first field matches the pattern and whose
    second field, split on [,], contains every required category.  Lines
    with fewer than three fields contribute nothing.  A registry with a
    longer line makes [get] fail with the scanner's error. *)
Theorem get_returns_selected_paths regex required w data re :
  files w !! ".catodb" = Some (Reg data) ->
  regexp_Compile regex = Ok re ->
  (lines_fit data ->
   get regex required w = (w, Ok (get_spec re required (lines_of data)))) /\
  (~ lines_fit data ->
   get regex required w = (w, Err bufio_ErrTooLong)) /\
  (forall line, (length (Split "|" line) < 3)%nat -> get_spec re required [line] = []) /\
  (forall set subset,
     containsAll set subset = true <-> forall c, c ∈ subset -> c ∈ set).
Proof.
  intros H Hre. split; [| split; [| split]].
  - now apply get_fit.
  - intros Hlong. eapply get_too_long; eassumption.
  - intros line Hlt. unfold get_spec.
    rewrite filter_cons, decide_False; [reflexivity |].
    intros (Hge & _). lia.
  - intros set subset. rewrite containsAll_spec. apply Forall_forall.
Qed.

(** ** The record format: timestamps *)

Lemma N_of_digit (n : N) : N_of_ascii (digit n) = (48 + n mod 10)%N.
Proof.
  unfold digit. apply N_ascii_embedding.
  pose proof (N.mod_lt n 10 ltac:(discriminate)) as H.
  revert H. generalize (n mod 10)%N. intros r H. lia.
Qed.

Lemma is_digit_digit (n : N) : is_digit (digit n) = true.
Proof.
  unfold is_digit. rewrite N_of_digit.
  pose proof (N.mod_lt n 10 ltac:(discriminate)) as H.
  revert H. generalize (n mod 10)%N. intros r H.
  apply andb_true_iff. split; apply N.leb_le; lia.
Qed.

Lemma digit_val_digit (n : N) : digit_val (digit n) = (n mod 10)%N.
Proof.
  unfold digit_val. rewrite N_of_digit. generalize (n mod 10)%N. intros r. lia.
Qed.

Lemma two_digits_in_range (u lo hi : N) :
  (u < 100)%N -> (lo <= u <= hi)%N ->
  two_digits (tensDigit u) (onesDigit u) lo hi = true.
Proof.
  intros Hu Hr. unfold two_digits, tensDigit, onesDigit.
  rewrite !is_digit_digit, !digit_val_digit. simpl.
  assert (Hq : (u / 10 < 10)%N) by (apply N.Div0.div_lt_upper_bound; exact Hu).
  rewrite (N.mod_small (u / 10) 10 Hq).
  assert (Hd : (10 * (u / 10) + u mod 10 = u)%N) by (symmetry; apply N.div_mod; discriminate).
  rewrite Hd. apply andb_true_iff. split; apply N.leb_le; apply Hr.
Qed.

Lemma appendInt_2 (x : Z) :
  (0 <= x < 100)%Z ->
  appendInt x 2 = String (tensDigit (Z.abs_N x)) (String (onesDigit (Z.abs_N x)) "").
Proof.
  intros H. unfold appendInt.
  destruct (Z.ltb_spec x 0) as [Hneg|_]; [lia |].
  destruct (N.ltb_spec (Z.abs_N x) 100) as [_|Hbig]; [reflexivity | lia].
Qed.

Lemma appendInt_4 (x : Z) :
  (0 <= x < 10000)%Z ->
  appendInt x 4 =
  String (tensDigit (Z.abs_N x / 100)) (String (onesDigit (Z.abs_N x / 100))
    (String (tensDigit (Z.abs_N x mod 100)) (String (onesDigit (Z.abs_N x mod 100)) ""))).
Proof.
  intros H. unfold appendInt.
  destruct (Z.ltb_spec x 0) as [Hneg|_]; [lia |].
  destruct (N.ltb_spec (Z.abs_N x) 10000) as [_|Hbig]; [reflexivity | lia].
Qed.

Lemma zone_fields (off : Z) :
  (-86400 < off < 86400)%Z ->
  (0 <= Z.abs (off ÷ 60) ÷ 60 <= 23 /\ 0 <= Z.rem (Z.abs (off ÷ 60)) 60 <= 59)%Z.
Proof.
  intros H.
  assert (Hz : (0 <= Z.abs (off ÷ 60) < 1440)%Z).
  { split; [apply Z.abs_nonneg |].
    rewrite <- Z.quot_abs by discriminate. simpl (Z.abs 60).
    apply Z.quot_lt_upper_bound; lia. }
  split.
  - split; [apply Z.quot_pos; lia |].
    assert (Z.abs (off ÷ 60) ÷ 60 < 24)%Z by (apply Z.quot_lt_upper_bound; lia). lia.
  - pose proof (Z.rem_bound_pos (Z.abs (off ÷ 60)) 60). lia.
Qed.

(** The layout of a formatted clock reading, character by character. *)
Lemma Format_RFC3339_layout (t : time_Time) :
  valid_time t ->
  exists y1 y2 y3 y4 mo1 mo2 d1 d2 h1 h2 mi1 mi2 s1 s2 off,
    Format_RFC3339 t =
      String y1 (String y2 (String y3 (String y4 (String "-"
      (String mo1 (String mo2 (String "-" (String d1 (String d2 (String "T"
      (String h1 (String h2 (String ":" (String mi1 (String mi2 (String ":"
      (String s1 (String s2 off)))))))))))))))))) /\
    is_digit y1 = true /\ is_digit y2 = true /\ is_digit y3 = true /\ is_digit y4 = true /\
    two_digits mo1 mo2 1 12 = true /\ two_digits d1 d2 1 31 = true /\
    two_digits h1 h2 0 23 = true /\ two_digits mi1 mi2 0 59 = true /\
    two_digits s1 s2 0 59 = true /\
    (off = "Z" \/
     exists sg z1 z2 z3 z4,
       off = String sg (String z1 (String z2 (String ":" (String z3 (String z4 ""))))) /\
       (sg = "+"%char \/ sg = "-"%char) /\
       two_digits z1 z2 0 23 = true /\ two_digits z3 z4 0 59 = true).
Proof.
  intros (Hy & Hmo & Hd & Hh & Hmi & Hs & Hoff).
  unfold Format_RFC3339.
  rewrite (appendInt_4 (year t)) by lia.
  rewrite (appendInt_2 (month t)), (appendInt_2 (day t)), (appendInt_2 (hour t)),
    (appendInt_2 (minute t)), (appendInt_2 (second t)) by lia.
  do 15 eexists. split; [simpl; reflexivity |].
  repeat (split; [first [apply is_digit_digit | apply two_digits_in_range; lia] |]).
  cbn [String.append].
  destruct (Z.eqb_spec (zoneOffset t) 0) as [Hz|Hnz]; [now left | right].
  destruct (zone_fields _ Hoff) as [Hq Hr].
  rewrite (appendInt_2 (Z.abs (zoneOffset t ÷ 60) ÷ 60)),
    (appendInt_2 (Z.rem (Z.abs (zoneOffset t ÷ 60)) 60)) by lia.
  destruct (Z.ltb_spec (zoneOffset t ÷ 60) 0); do 5 eexists;
    (split; [simpl; reflexivity |]);
    (split; [auto |]); split; apply two_digits_in_range; lia.
Qed.

(** A formatted clock reading is an RFC 3339 date-time. *)
Lemma Format_RFC3339_wellformed (t : time_Time) :
  valid_time t -> is_rfc3339 (Format_RFC3339 t) = true.
Proof.
  intros H.
  destruct (Format_RFC3339_layout t H)
    as (y1 & y2 & y3 & y4 & mo1 & mo2 & d1 & d2 & h1 & h2 & mi1 & mi2 & s1 & s2 & off &
        -> & Hy1 & Hy2 & Hy3 & Hy4 & Hmo & Hd & Hh & Hmi & Hs & Hoff).
  unfold is_rfc3339. cbn [list_ascii_of_string].
  rewrite Hy1, Hy2, Hy3, Hy4, Hmo, Hd, Hh, Hmi, Hs, string_of_list_ascii_of_string.
  simpl. destruct Hoff as [->|(sg & z1 & z2 & z3 & z4 & -> & Hsg & Hz1 & Hz2)].
  - reflexivity.
  - unfold is_rfc3339_offset. cbn [list_ascii_of_string].
    rewrite Hz1, Hz2. destruct Hsg as [->| ->]; reflexivity.
Qed.

Lemma last_byte_append (a b : string) :
  b <> "" -> last_byte (a +:+ b) = last_byte b.
Proof.
  intros Hb. induction a as [|c a IH]; [reflexivity |].
  simpl. rewrite IH. destruct (a +:+ b) eqn:E; [| reflexivity].
  destruct a; simpl in E; [congruence | discriminate].
Qed.

(** A formatted clock reading ends in [Z] or in a digit. *)
Lemma Format_RFC3339_last (t : time_Time) :
  valid_time t ->
  exists c, last_byte (Format_RFC3339 t) = Some c /\ (c = "Z"%char \/ is_digit c = true).
Proof.
  intros H.
  destruct (Format_RFC3339_layout t H)
    as (y1 & y2 & y3 & y4 & mo1 & mo2 & d1 & d2 & h1 & h2 & mi1 & mi2 & s1 & s2 & off &
        -> & _ & _ & _ & _ & _ & _ & _ & _ & _ & Hoff).
  destruct Hoff as [->|(sg & z1 & z2 & z3 & z4 & -> & _ & _ & Hz)].
  - exists "Z"%char. split; [reflexivity | now left].
  - exists z4. split; [reflexivity | right].
    unfold two_digits in Hz. now destruct (is_digit z3), (is_digit z4).
Qed.

(** ** The record format: [format] *)

(** The loop of [format] joins the categories with commas. *)
Lemma format_cat_concat (rest : list string) : forall cat index,
  format_cat cat index (index + length rest) rest = cat +:+ String.concat "," rest.
Proof.
  induction rest as [|category rest IH]; intros cat index.
  - simpl. now rewrite append_nil_r.
  - cbn [format_cat length]. replace (index + S (length rest))%nat with (S index + length rest)%nat by lia.
    rewrite IH. destruct rest as [|c' rest'].
    + simpl. destruct (Nat.ltb_spec (index + 1) (S (index + 0))); [lia |].
      now rewrite append_nil_r.
    + cbn [length String.concat].
      destruct (Nat.ltb_spec (index + 1) (S index + S (length rest'))); [| lia].
      now rewrite !append_assoc.
Qed.

Lemma format_default path categories w :
  format path categories "" w =
  (tick w, Ok (path +:+ "|" +:+ String.concat "," categories +:+ "|" +:+
               Format_RFC3339 (wall_clock (ticks w)))).
Proof.
  unfold format, bind, time_Now, ret.
  rewrite (format_cat_concat categories "" 0
             : format_cat "" 0 (length categories) categories = _).
  reflexivity.
Qed.

Lemma format_custom path categories separator w :
  separator <> "" ->
  format path categories separator w =
  (tick w, Ok (path +:+ separator +:+ String.concat "," categories +:+ separator +:+
               Format_RFC3339 (wall_clock (ticks w)))).
Proof.
  intros Hs. unfold format, bind, time_Now, ret.
  destruct (String.eqb_spec separator "") as [->|_]; [congruence |].
  rewrite (format_cat_concat categories "" 0
             : format_cat "" 0 (length categories) categories = _).
  reflexivity.
Qed.

(** C6.  With an empty separator [format] uses [|]: the line is the path,
    [|], the categories joined by [,], [|] and the clock reading.  With no
    categories the middle field is empty.  The clock reading is an RFC 3339
    date-time, and the line ends with its last character, which is neither
    the separator nor a line feed. *)
Theorem format_default_shape path categories w :
  valid_time (wall_clock (ticks w)) ->
  exists stamp,
    stamp = Format_RFC3339 (wall_clock (ticks w)) /\
    is_rfc3339 stamp = true /\
    format path categories "" w =
      (tick w, Ok (path +:+ "|" +:+ String.concat "," categories +:+ "|" +:+ stamp)) /\
    format path [] "" w = (tick w, Ok (path +:+ "||" +:+ stamp)) /\
    forall line, snd (format path categories "" w) = Ok line ->
      last_byte line = last_byte stamp /\
      last_byte line <> Some "|"%char /\ last_byte line <> Some LF.
Proof.
  intros Hv. eexists. split; [reflexivity |].
  split; [now apply Format_RFC3339_wellformed |].
  split; [apply format_default |].
  split; [apply format_default |].
  intros line. rewrite format_default. cbn [snd]. intros Hline.
  assert (line = path +:+ "|" +:+ String.concat "," categories +:+ "|" +:+
                 Format_RFC3339 (wall_clock (ticks w))) as -> by congruence.
  clear Hline.
  destruct (Format_RFC3339_last _ Hv) as (c & Hc & Hcase).
  assert (Hne : Format_RFC3339 (wall_clock (ticks w)) <> "").
  { intros E. rewrite E in Hc. discriminate. }
  assert (Hlast : last_byte (path +:+ "|" +:+ String.concat "," categories +:+ "|" +:+
                             Format_RFC3339 (wall_clock (ticks w))) =
                  last_byte (Format_RFC3339 (wall_clock (ticks w)))).
  { rewrite <- !append_assoc. now apply last_byte_append. }
  rewrite Hlast, Hc. split; [reflexivity |].
  split; intros [= ->]; destruct Hcase as [Hz|Hdig]; discriminate.
Qed.

(** ** Reading a record back: [strings.Split] *)

Lemma has_byte_append c (a b : string) :
  has_byte c (a +:+ b) = has_byte c a || has_byte c b.
Proof.
  induction a as [|x a IH]; simpl; [reflexivity |].
  now rewrite IH, orb_assoc.
Qed.

Lemma Split_nonempty sep s : Split sep s <> [].
Proof.
  destruct s as [|c s]; simpl; [discriminate |].
  destruct (Ascii.eqb c sep); [discriminate |].
  destruct (Split sep s); discriminate.
Qed.

Lemma Split_length sep s : (1 <= length (Split sep s))%nat.
Proof.
  pose proof (Split_nonempty sep s). destruct (Split sep s); [congruence | simpl; lia].
Qed.

(** A field that does not contain the separator is split off whole. *)
Lemma Split_field sep (a b : string) :
  has_byte sep a = false ->
  Split sep (a +:+ String sep b) = a :: Split sep b.
Proof.
  induction a as [|c a IH]; simpl; intros H.
  - now rewrite Ascii.eqb_refl.
  - apply orb_false_iff in H as [Hc Ha]. now rewrite Hc, (IH Ha).
Qed.

Lemma Split_whole sep (a : string) :
  has_byte sep a = false -> Split sep a = [a].
Proof.
  induction a as [|c a IH]; simpl; intros H; [reflexivity |].
  apply orb_false_iff in H as [Hc Ha]. now rewrite Hc, (IH Ha).
Qed.

Lemma concat_cons2 sep (p q : string) (parts : list string) :
  String.concat sep (p :: q :: parts) = p +:+ sep +:+ String.concat sep (q :: parts).
Proof. reflexivity. Qed.

(** Splitting undoes joining when no part contains the separator and there
    is at least one part. *)
Lemma Split_concat sep (parts : list string) :
  parts <> [] ->
  Forall (fun p => has_byte sep p = false) parts ->
  Split sep (String.concat (String sep "") parts) = parts.
Proof.
  intros Hne Hall. induction Hall as [|p parts Hp Hall IH]; [congruence |].
  destruct parts as [|q parts].
  - simpl. now apply Split_whole.
  - rewrite concat_cons2.
    rewrite (Split_field sep p (String.concat (String sep "") (q :: parts)) Hp
               : Split sep (p +:+ String sep "" +:+ _) = _).
    rewrite IH; [reflexivity | discriminate].
Qed.

Lemma has_byte_concat c sep (parts : list string) :
  has_byte c sep = false ->
  Forall (fun p => has_byte c p = false) parts ->
  has_byte c (String.concat sep parts) = false.
Proof.
  intros Hsep Hall. induction Hall as [|p parts Hp Hall IH]; [reflexivity |].
  destruct parts as [|q parts]; [exact Hp |].
  rewrite concat_cons2. now rewrite !has_byte_append, Hp, Hsep, IH.
Qed.

(** No field of a split contains the separator. *)
Lemma Split_fields_free sep s :
  Forall (fun f => has_byte sep f = false) (Split sep s).
Proof.
  induction s as [|c s IH]; simpl.
  - repeat constructor.
  - destruct (Ascii.eqb c sep) eqn:Hc.
    + constructor; [reflexivity | exact IH].
    + destruct (Split sep s) as [|p ps]; [repeat constructor; simpl; now rewrite Hc |].
      inversion IH as [|? ? Hp Hps]; subst.
      constructor; [simpl; now rewrite Hc, Hp | exact Hps].
Qed.

(** A field of a split contains only bytes of the string that was split. *)
Lemma Split_fields_bytes sep c s :
  has_byte c s = false -> Forall (fun f => has_byte c f = false) (Split sep s).
Proof.
  induction s as [|x s IH]; simpl; intros H.
  - repeat constructor.
  - apply orb_false_iff in H as [Hx Hs]. specialize (IH Hs).
    destruct (Ascii.eqb x sep).
    + constructor; [reflexivity | exact IH].
    + destruct (Split sep s) as [|p ps]; [repeat constructor; simpl; now rewrite Hx |].
      inversion IH as [|? ? Hp Hps]; subst.
      constructor; [simpl; now rewrite Hx, Hp | exact Hps].
Qed.

(** The fields of a record line whose path and category field are free of [|]. *)
Lemma Split_record (path cat stamp : string) :
  has_byte "|" path = false ->
  has_byte "|" cat = false ->
  Split "|" (path +:+ "|" +:+ cat +:+ "|" +:+ stamp) = path :: cat :: Split "|" stamp.
Proof.
  intros Hp Hc.
  change (path +:+ "|" +:+ cat +:+ "|" +:+ stamp)
    with (path +:+ String "|" (cat +:+ String "|" stamp)).
  now rewrite (Split_field _ _ _ Hp), (Split_field _ _ _ Hc).
Qed.

(** C2, as the code has it.  For a path without [|] and a non-empty
    sequence of categories none of which contains [|] or [,], the line
    [format] produces with the default separator splits on [|] into at
    least three fields, its first field is the path, and its second field
    split on [,] is the category sequence itself; so exactly the given
    categories are members of the recovered set. *)
Theorem format_roundtrip path categories w :
  has_byte "|" path = false ->
  categories <> [] ->
  Forall (fun c => has_byte "|" c = false /\ has_byte "," c = false) categories ->
  exists line,
    format path categories "" w = (tick w, Ok line) /\
    (3 <= length (Split "|" line))%nat /\
    path_field line = path /\
    category_field line = categories /\
    recovers path categories line.
Proof.
  intros Hpath Hne Hall.
  assert (Hbar : Forall (fun c => has_byte "|" c = false) categories)
    by (eapply Forall_impl; [exact Hall | now intros c [? _]]).
  assert (Hcomma : Forall (fun c => has_byte "," c = false) categories)
    by (eapply Forall_impl; [exact Hall | now intros c [_ ?]]).
  assert (Hcat : has_byte "|" (String.concat "," categories) = false)
    by (now apply has_byte_concat).
  eexists. split; [apply format_default |].
  assert (Hlen : (3 <= length (Split "|" (path +:+ "|" +:+ String.concat "," categories +:+
                    "|" +:+ Format_RFC3339 (wall_clock (ticks w)))))%nat).
  { rewrite (Split_record _ _ _ Hpath Hcat). simpl.
    pose proof (Split_length "|" (Format_RFC3339 (wall_clock (ticks w)))). lia. }
  assert (Hp : path_field (path +:+ "|" +:+ String.concat "," categories +:+
                    "|" +:+ Format_RFC3339 (wall_clock (ticks w))) = path).
  { unfold path_field. now rewrite (Split_record _ _ _ Hpath Hcat). }
  assert (Hc : category_field (path +:+ "|" +:+ String.concat "," categories +:+
                    "|" +:+ Format_RFC3339 (wall_clock (ticks w))) = categories).
  { unfold category_field. rewrite (Split_record _ _ _ Hpath Hcat). simpl.
    now apply (Split_concat ","%char). }
  repeat split; try assumption; rewrite Hc; auto.
Qed.

(** The conditions of the round trip are needed: a line of [format] that
    reads back as its path and categories has a path without [|] and a
    non-empty sequence of categories without [|] and [,]. *)
Lemma roundtrip_conditions_needed path categories w line :
  format path categories "" w = (tick w, Ok line) ->
  recovers path categories line ->
  has_byte "|" path = false /\ categories <> [] /\
  Forall (fun c => has_byte "|" c = false /\ has_byte "," c = false) categories.
Proof.
  intros _ (Hlen & Hp & Hmem).
  pose proof (Split_fields_free "|" line) as Hfree.
  unfold path_field in Hp. unfold category_field in Hmem.
  destruct (Split "|" line) as [|f0 [|f1 fs]] eqn:E; simpl in Hlen; try lia.
  simpl in Hp, Hmem. subst f0.
  inversion Hfree as [|? ? H0 Hrest]; subst. inversion Hrest as [|? ? H1 _]; subst.
  split; [exact H0 |]. split.
  - pose proof (Split_nonempty "," f1) as Hn.
    destruct (Split "," f1) as [|c cs] eqn:Ec; [congruence |].
    intros ->. specialize (Hmem c). rewrite elem_of_nil in Hmem.
    apply Hmem. rewrite <- Ec. rewrite Ec. apply list_elem_of_here.
  - apply Forall_forall. intros c Hc. apply Hmem in Hc. split.
    + pose proof (Split_fields_bytes "," "|" f1 H1) as Hb.
      rewrite Forall_forall in Hb. now apply Hb.
    + pose proof (Split_fields_free "," f1) as Hb.
      rewrite Forall_forall in Hb. now apply Hb.
Qed.

(** ** Registration: [registerFile] *)

(** The snapshot never has the name of the registry, nor of its subject. *)
Lemma length_append (a b : string) :
  String.length (a +:+ b) = (String.length a + String.length b)%nat.
Proof. induction a as [|c a IH]; simpl; [reflexivity | now rewrite IH]. Qed.

Lemma copy_not_registry (fileName : string) : fileName +:+ ".copy" <> ".catodb".
Proof.
  intros H. pose proof (f_equal String.length H) as Hl.
  rewrite length_append in Hl. simpl in Hl.
  destruct fileName as [|a [|b [|c s]]]; simpl in Hl; try lia.
  simpl in H. discriminate.
Qed.

Lemma copy_not_subject (fileName : string) : fileName +:+ ".copy" <> fileName.
Proof.
  intros H. apply (f_equal String.length) in H. rewrite length_append in H.
  simpl in H. lia.
Qed.

Lemma registerFile_missing_subject fileName categories copy w :
  files w !! fileName = None ->
  registerFile fileName categories copy w = (w, Err (errors_New "file does not exist")).
Proof.
  intros H. unfold registerFile, bind. now rewrite (checkFileExists_missing _ _ H).
Qed.

(** What is left of [registerFile] once the subject is found and the line
    is formatted. *)
Lemma registerFile_found fileName categories copy w n :
  files w !! fileName = Some n ->
  registerFile fileName categories copy w =
  (let* db := on_error (Errorf_w "failed to open .catodb for writing")
                (os_OpenFile ".catodb" [O_APPEND; O_WRONLY]) in
   let* _ := if copy then snapshot fileName fileName else ret tt in
   let* _ := on_error (Errorf_w "failed to write to .catodb")
               (WriteString db
                  ((fileName +:+ "|" +:+ String.concat "," categories +:+ "|" +:+
                    Format_RFC3339 (wall_clock (ticks w))) +:+ newline)) in
   ret true) (tick w).
Proof.
  intros H. unfold registerFile. unfold bind at 1.
  rewrite (checkFileExists_found _ _ _ H). cbv beta iota.
  unfold bind at 1. rewrite format_default. reflexivity.
Qed.

Lemma registerFile_missing_registry fileName categories copy w n :
  files w !! fileName = Some n ->
  files w !! ".catodb" = None ->
  registerFile fileName categories copy w =
  (tick w, Err (Errorf_w "failed to open .catodb for writing"
                  (PathError "open" ".catodb" ENOENT))).
Proof.
  intros H Hdb. rewrite (registerFile_found _ _ _ _ _ H).
  unfold bind, on_error, os_OpenFile. change (files (tick w)) with (files w).
  now rewrite Hdb.
Qed.

(** Without the registry nothing is written, whether or not the subject
    exists and whether or not a snapshot was asked for. *)
Lemma registerFile_no_registry fileName categories copy w :
  files w !! ".catodb" = None ->
  exists w' e,
    registerFile fileName categories copy w = (w', Err e) /\ files w' = files w.
Proof.
  intros Hdb. destruct (files w !! fileName) as [n|] eqn:H.
  - do 2 eexists. split; [now apply (registerFile_missing_registry _ _ _ _ n) | reflexivity].
  - do 2 eexists. split; [now apply registerFile_missing_subject | reflexivity].
Qed.

Lemma os_Create_file name w :
  files w !! name <> Some Dir ->
  os_Create name w = (set_files w (<[name := Reg ""]> (files w)), Ok name).
Proof.
  intros H. unfold os_Create, os_OpenFile.
  destruct (files w !! name) as [[x|]|]; [reflexivity | congruence | reflexivity].
Qed.

Lemma os_Create_directory name w :
  files w !! name = Some Dir ->
  os_Create name w = (w, Err (PathError "open" name EISDIR)).
Proof. intros H. unfold os_Create, os_OpenFile. now rewrite H. Qed.

Lemma snapshot_blocked fileName w :
  files w !! (fileName +:+ ".copy") = Some Dir ->
  snapshot fileName fileName w =
  (w, Err (Errorf_w "failed to create copy of file"
             (PathError "open" (fileName +:+ ".copy") EISDIR))).
Proof.
  intros H. unfold snapshot, bind, on_error. cbv zeta. now rewrite (os_Create_directory _ _ H).
Qed.

Lemma snapshot_created fileName w :
  files w !! (fileName +:+ ".copy") <> Some Dir ->
  snapshot fileName fileName w =
  match files w !! fileName with
  | Some (Reg data) =>
      (set_files w (<[fileName +:+ ".copy" := Reg data]> (files w)), Ok tt)
  | Some Dir =>
      (set_files w (<[fileName +:+ ".copy" := Reg ""]> (files w)),
       Err (Errorf_w "failed to copy file" (PathError "read" fileName EISDIR)))
  | None =>
      (set_files w (<[fileName +:+ ".copy" := Reg ""]> (files w)),
       Err (Errorf_w "failed to copy file" (PathError "read" fileName ENOENT)))
  end.
Proof.
  intros H. pose proof (copy_not_subject fileName) as Hne.
  unfold snapshot, bind, on_error. cbv zeta. rewrite (os_Create_file _ _ H).
  unfold io_Copy. rewrite files_set_files, lookup_insert_ne by exact Hne.
  destruct (files w !! fileName) as [[data|]|]; try reflexivity.
  rewrite (WriteString_regular _ _ _ "") by (rewrite files_set_files; apply lookup_insert_eq).
  now rewrite set_files_twice, files_set_files, insert_insert_eq.
Qed.


Lemma open_registry w db :
  files w !! ".catodb" = Some (Reg db) ->
  on_error (Errorf_w "failed to open .catodb for writing")
    (os_OpenFile ".catodb" [O_APPEND; O_WRONLY]) w = (w, Ok ".catodb").
Proof. intros H. unfold on_error, os_OpenFile. now rewrite H. Qed.

Lemma append_registry w db line :
  files w !! ".catodb" = Some (Reg db) ->
  on_error (Errorf_w "failed to write to .catodb") (WriteString ".catodb" line) w =
  (set_files w (<[".catodb" := Reg (db +:+ line)]> (files w)), Ok tt).
Proof. intros H. unfold on_error. now rewrite (WriteString_regular _ _ _ _ H). Qed.

(** When the snapshot step fails, so does the registration, in the world
    the snapshot step left. *)
Lemma registerFile_snapshot_fails fileName categories w n db w1 e :
  files w !! fileName = Some n ->
  files w !! ".catodb" = Some (Reg db) ->
  snapshot fileName fileName (tick w) = (w1, Err e) ->
  registerFile fileName categories true w = (w1, Err e).
Proof.
  intros H Hdb Hs. rewrite (registerFile_found _ _ _ _ _ H).
  unfold bind at 1. rewrite (open_registry _ db) by exact Hdb.
  unfold bind at 1. now rewrite Hs.
Qed.


(** A registration that meets no obstacle appends exactly one line, after
    making the snapshot when asked to.  The categories are not looked at. *)
Lemma registerFile_appends fileName categories copy w data db :
  files w !! fileName = Some (Reg data) ->
  files w !! ".catodb" = Some (Reg db) ->
  (copy = true -> files w !! (fileName +:+ ".copy") <> Some Dir) ->
  registerFile fileName categories copy w =
  (set_files (tick w)
     (<[".catodb" := Reg (db +:+ (fileName +:+ "|" +:+ String.concat "," categories +:+ "|" +:+
                                  Format_RFC3339 (wall_clock (ticks w))) +:+ newline)]>
        (if copy then <[fileName +:+ ".copy" := Reg data]> (files w) else files w)),
   Ok true).
Proof.
  intros H Hdb Hdst. rewrite (registerFile_found _ _ _ _ _ H).
  unfold bind at 1. rewrite (open_registry _ db) by exact Hdb.
  unfold bind at 1. destruct copy.
  - rewrite snapshot_created by (now apply Hdst).
    change (files (tick w)) with (files w). rewrite H.
    unfold bind. rewrite (append_registry _ db).
    + now rewrite set_files_twice, files_set_files.
    + rewrite files_set_files, lookup_insert_ne; [exact Hdb | apply copy_not_registry].
  - unfold ret at 1. unfold bind. rewrite (append_registry _ db) by exact Hdb.
    reflexivity.
Qed.


(** C8.  With no registry file, [registerFile] returns an error, which is
    the failed open of [.catodb] when the subject exists, and [get] fails
    with "file does not exist".  Neither call changes any file, so the
    registry is still missing afterwards. *)
Theorem missing_registry_is_an_error fileName categories copy regex required w :
  files w !! ".catodb" = None ->
  (exists w' e,
     registerFile fileName categories copy w = (w', Err e) /\
     files w' = files w /\ files w' !! ".catodb" = None) /\
  (forall n, files w !! fileName = Some n ->
     registerFile fileName categories copy w =
     (tick w, Err (Errorf_w "failed to open .catodb for writing"
                     (PathError "open" ".catodb" ENOENT)))) /\
  get regex required w = (w, Err (errors_New "file does not exist")).
Proof.
  intros Hdb. split; [| split].
  - destruct (registerFile_no_registry fileName categories copy w Hdb) as (w' & e & Hr & Hf).
    exists w', e. split; [exact Hr |]. split; [exact Hf |]. now rewrite Hf.
  - intros n H. now apply (registerFile_missing_registry _ _ _ _ n).
  - now apply get_missing.
Qed.

(** C10.  With no registry file, [registerFile] asked for a snapshot fails
    and leaves every file as it was: in particular nothing is created or
    changed at [fileName.copy]. *)
Theorem missing_registry_no_snapshot fileName categories w :
  files w !! ".catodb" = None ->
  exists w' e,
    registerFile fileName categories true w = (w', Err e) /\
    files w' = files w /\
    files w' !! (fileName +:+ ".copy") = files w !! (fileName +:+ ".copy").
Proof.
  intros Hdb.
  destruct (registerFile_no_registry fileName categories true w Hdb) as (w' & e & Hr & Hf).
  exists w', e. split; [exact Hr |]. split; [exact Hf |]. now rewrite Hf.
Qed.

(** ** Bulk registration: [registerFiles] *)

Lemma readFile_reads_only fileName w w' r :
  readFile fileName w = (w', r) -> w' = w.
Proof.
  unfold readFile, bind, os_Open.
  destruct (files w !! fileName) as [n|] eqn:H; [| now intros [= <- _]].
  cbv beta iota. unfold Scanner_run. rewrite H.
  destruct n as [data|].
  - destruct (scan_data data) as [ts [e|]]; simpl; now intros [= <- _].
  - simpl. now intros [= <- _].
Qed.

Lemma registerFile_returns_true fileName categories copy w w' b :
  registerFile fileName categories copy w = (w', Ok b) -> b = true.
Proof.
  unfold registerFile, bind, ret.
  destruct (checkFileExists fileName w) as [w1 [file|]]; [| discriminate].
  destruct (format fileName categories "" w1) as [w2 [formatted|]]; [| discriminate].
  destruct (on_error _ (os_OpenFile ".catodb" _) w2) as [w3 [db|]]; [| discriminate].
  destruct ((if copy then snapshot fileName file else fun w => (w, Ok tt)) w3)
    as [w4 [[]|]]; [| discriminate].
  destruct (on_error _ (WriteString db _) w4) as [w5 [[]|]]; [| discriminate].
  now intros [= _ <-].
Qed.

(** A stretch of the traversal without failure is walked to its end, and
    the paths registered are appended to those collected so far. *)
Lemma Walk_loop_ok re vs w w' ps :
  bulk_ok re vs w w' ps ->
  forall acc, Walk_loop (registerFiles_visit re) vs acc w = (w', Ok (acc ++ ps)).
Proof.
  induction 1 as [w | path info vs w w' ps Hc _ IH
                    | path info vs w categories w1 w' ps Hc Hread Hreg _ IH];
    intros acc; simpl.
  - unfold ret. now rewrite List.app_nil_r.
  - unfold bind. unfold chosen in Hc. rewrite Hc. unfold ret at 1. apply IH.
  - unfold bind. unfold chosen in Hc. rewrite Hc, Hread, Hreg. unfold ret at 1.
    rewrite IH. now rewrite <- List.app_assoc.
Qed.

(** The walk stops at the first visit that fails and returns its error. *)
Lemma Walk_loop_fails re pre v post w w1 ps w2 e :
  bulk_ok re pre w w1 ps ->
  visit_fails re v w1 w2 e ->
  forall acc, Walk_loop (registerFiles_visit re) (pre ++ v :: post) acc w = (w2, Err e).
Proof.
  intros Hpre Hv.
  induction Hpre as [w | path info vs w w' ps Hc _ IH
                       | path info vs w categories w1 w' ps Hc Hread Hreg _ IH];
    intros acc; simpl.
  - unfold bind.
    destruct Hv as [path e w | path info w e Hc Hread
                    | path info w categories w' e Hc Hread Hreg]; simpl.
    + reflexivity.
    + unfold chosen in Hc. unfold bind. now rewrite Hc, Hread.
    + unfold chosen in Hc. unfold bind. now rewrite Hc, Hread, Hreg.
  - unfold bind. unfold chosen in Hc. rewrite Hc. unfold ret at 1. now apply IH.
  - unfold bind. unfold chosen in Hc. rewrite Hc, Hread, Hreg. unfold ret at 1. now apply IH.
Qed.

Lemma bulk_ok_paths re vs w w' ps :
  bulk_ok re vs w w' ps -> ps = chosen_paths re vs.
Proof.
  induction 1 as [w | path info vs w w' ps Hc _ IH
                    | path info vs w categories w1 w' ps Hc _ _ _ IH]; simpl.
  - reflexivity.
  - now rewrite Hc.
  - now rewrite Hc, IH.
Qed.

(** Every traversal either runs through or has a first failing visit. *)
Lemma bulk_total re vs : forall w,
  (exists w' ps, bulk_ok re vs w w' ps) \/
  (exists pre v post w1 ps w2 e,
     vs = pre ++ v :: post /\ bulk_ok re pre w w1 ps /\ visit_fails re v w1 w2 e).
Proof.
  induction vs as [|v vs IH]; intros w.
  - left. do 2 eexists. constructor.
  - destruct v as [path info | path err].
    2: { right. exists [], (Failed path err), vs, w, [], w, err.
         repeat split; constructor. }
    destruct (chosen re info) eqn:Hc.
    + destruct (readFile path w) as [wr [categories|e]] eqn:Hread;
        pose proof (readFile_reads_only _ _ _ _ Hread) as ->.
      * destruct (registerFile path categories true w) as [w1 [b|e]] eqn:Hreg.
        -- pose proof (registerFile_returns_true _ _ _ _ _ _ Hreg) as ->.
           destruct (IH w1) as [(w' & ps & Hok)
                               |(pre & v & post & w2 & ps & w3 & e & -> & Hok & Hf)].
           ++ left. do 2 eexists. eapply bulk_register; eassumption.
           ++ right. exists (Entry path info :: pre), v, post, w2, (path :: ps), w3, e.
              split; [reflexivity |]. split; [| exact Hf].
              eapply bulk_register; eassumption.
        -- right. exists [], (Entry path info), vs, w, [], w1, e.
           split; [reflexivity |]. split; [constructor |].
           eapply fails_register; eassumption.
      * right. exists [], (Entry path info), vs, w, [], w, e.
        split; [reflexivity |]. split; [constructor |].
        now apply fails_read.
    + destruct (IH w) as [(w' & ps & Hok)
                         |(pre & v & post & w2 & ps & w3 & e & -> & Hok & Hf)].
      * left. do 2 eexists. apply bulk_pass; eassumption.
      * right. exists (Entry path info :: pre), v, post, w2, ps, w3, e.
        split; [reflexivity |]. split; [| exact Hf].
        apply bulk_pass; assumption.
Qed.

(** C9.  [registerFiles] returns the pattern's compile error at once and
    touches nothing.  With a compiled pattern it walks the traversal in
    order: entries that are directories or whose base name does not match
    are passed over, every other entry is registered with the lines of the
    file itself as categories and with a snapshot.  The first visit that
    fails, because the traversal reports an error there, or the file cannot
    be read, or its registration fails, ends the walk and its error is
    returned without a path list.  When no visit fails, the paths of the
    registered entries are returned in traversal order.  One of the three
    cases always applies. *)
Theorem registerFiles_fail_fast folder regex w :
  (forall e, regexp_Compile regex = Err e ->
     registerFiles folder regex w = (w, Err e)) /\
  (forall re pre v post w1 ps w2 e,
     regexp_Compile regex = Ok re ->
     traversal (files w) folder = pre ++ v :: post ->
     bulk_ok re pre w w1 ps ->
     visit_fails re v w1 w2 e ->
     registerFiles folder regex w = (w2, Err e)) /\
  (forall re w' ps,
     regexp_Compile regex = Ok re ->
     bulk_ok re (traversal (files w) folder) w w' ps ->
     registerFiles folder regex w = (w', Ok ps) /\
     ps = chosen_paths re (traversal (files w) folder)) /\
  ((exists e, regexp_Compile regex = Err e) \/
   (exists re pre v post w1 ps w2 e,
      regexp_Compile regex = Ok re /\
      traversal (files w) folder = pre ++ v :: post /\
      bulk_ok re pre w w1 ps /\ visit_fails re v w1 w2 e) \/
   (exists re w' ps,
      regexp_Compile regex = Ok re /\
      bulk_ok re (traversal (files w) folder) w w' ps)).
Proof.
  split; [| split; [| split]].
  - intros e He. unfold registerFiles, bind, lift. now rewrite He.
  - intros re pre v post w1 ps w2 e Hre Hvs Hpre Hv.
    unfold registerFiles, bind, lift, filepath_Walk. rewrite Hre, Hvs.
    now rewrite (Walk_loop_fails _ _ _ _ _ _ _ _ _ Hpre Hv).
  - intros re w' ps Hre Hok. split; [| now apply (bulk_ok_paths _ _ _ _ _ Hok)].
    unfold registerFiles, bind, lift, filepath_Walk. rewrite Hre.
    now rewrite (Walk_loop_ok _ _ _ _ _ Hok).
  - destruct (regexp_Compile regex) as [re|e] eqn:Hre; [right | left; now exists e].
    destruct (bulk_total re (traversal (files w) folder) w)
      as [(w' & ps & Hok)|(pre & v & post & w1 & ps & w2 & e & Hvs & Hok & Hf)].
    + right. now exists re, w', ps.
    + left. now exists re, pre, v, post, w1, ps, w2, e.
Qed.

(** ** More on reading lines *)

Lemma lines_fit_or_not (data : string) : lines_fit data \/ ~ lines_fit data.
Proof.
  unfold lines_fit.
  destruct (decide (Forall (fun l => (lenN l < MaxScanTokenSize)%N) (ScanLines data))); auto.
Qed.

Lemma readFile_fit fileName w data :
  files w !! fileName = Some (Reg data) -> lines_fit data ->
  readFile fileName w = (w, Ok (lines_of data)).
Proof.
  intros H Hfit. unfold readFile, bind, os_Open. rewrite H. cbv beta iota.
  unfold Scanner_run. rewrite H, (scan_data_fit _ Hfit). simpl.
  now rewrite fold_left_copy.
Qed.

Lemma readFile_too_long fileName w data :
  files w !! fileName = Some (Reg data) -> ~ lines_fit data ->
  readFile fileName w = (w, Err bufio_ErrTooLong).
Proof.
  intros H Hfit. unfold readFile, bind, os_Open. rewrite H. cbv beta iota.
  unfold Scanner_run. rewrite H. destruct (not_lines_fit _ Hfit) as [ts ->]. reflexivity.
Qed.

Lemma readFile_missing fileName w :
  files w !! fileName = None ->
  readFile fileName w = (w, Err (PathError "open" fileName ENOENT)).
Proof. intros H. unfold readFile, bind, os_Open. now rewrite H. Qed.

Lemma readFile_directory fileName w :
  files w !! fileName = Some Dir ->
  readFile fileName w = (w, Err (PathError "read" fileName EISDIR)).
Proof.
  intros H. unfold readFile, bind, os_Open. rewrite H. cbv beta iota.
  unfold Scanner_run. now rewrite H.
Qed.

(** X1.  [readFile] never changes the world.  It returns the lines of a
    regular file whose lines all fit the scanner, the scanner's error when
    one does not, the read error for a directory, and for a missing file the
    error of [os.Open] as it is, not the "file does not exist" of
    [checkFileExists]. *)
Theorem readFile_outcomes fileName w :
  (files w !! fileName = None ->
   readFile fileName w = (w, Err (PathError "open" fileName ENOENT))) /\
  (files w !! fileName = Some Dir ->
   readFile fileName w = (w, Err (PathError "read" fileName EISDIR))) /\
  (forall data, files w !! fileName = Some (Reg data) -> lines_fit data ->
   readFile fileName w = (w, Ok (lines_of data))) /\
  (forall data, files w !! fileName = Some (Reg data) -> ~ lines_fit data ->
   readFile fileName w = (w, Err bufio_ErrTooLong)) /\
  (forall w' r, readFile fileName w = (w', r) -> w' = w).
Proof.
  split; [apply readFile_missing |]. split; [apply readFile_directory |].
  split; [intros data; apply readFile_fit |].
  split; [intros data; apply readFile_too_long |].
  intros w' r. destruct (files w !! fileName) as [[data|]|] eqn:H.
  - destruct (lines_fit_or_not data) as [Hfit|Hfit].
    + rewrite (readFile_fit _ _ _ H Hfit). now intros [= <- _].
    + rewrite (readFile_too_long _ _ _ H Hfit). now intros [= <- _].
  - rewrite (readFile_directory _ _ H). now intros [= <- _].
  - rewrite (readFile_missing _ _ H). now intros [= <- _].
Qed.

(** X3.  [DeleteCategory] reads its listing the way [readFile] does: when
    [readFile] returns lines, [DeleteCategory] succeeds and writes those of
    them that differ from the label; when [readFile] fails, [DeleteCategory]
    fails and changes nothing, with the same error except that a missing
    file is reported as "file does not exist". *)
Theorem DeleteCategory_follows_readFile label fileName w :
  (forall w' ls, readFile fileName w = (w', Ok ls) ->
     DeleteCategory label fileName w =
     (set_files w (<[fileName := Reg (unlines (filter (fun l => l <> label) ls))]> (files w)),
      Ok true)) /\
  (forall w' e, readFile fileName w = (w', Err e) ->
     DeleteCategory label fileName w =
     (w, Err (if is_ErrNotExist e then errors_New "file does not exist" else e))).
Proof.
  split; intros w' x; destruct (files w !! fileName) as [[data|]|] eqn:H.
  - destruct (lines_fit_or_not data) as [Hfit|Hfit].
    + rewrite (readFile_fit _ _ _ H Hfit). intros [= _ <-]. now apply DeleteCategory_fit.
    + rewrite (readFile_too_long _ _ _ H Hfit). discriminate.
  - rewrite (readFile_directory _ _ H). discriminate.
  - rewrite (readFile_missing _ _ H). discriminate.
  - destruct (lines_fit_or_not data) as [Hfit|Hfit].
    + rewrite (readFile_fit _ _ _ H Hfit). discriminate.
    + rewrite (readFile_too_long _ _ _ H Hfit). intros [= _ <-].
      now apply (DeleteCategory_too_long _ _ _ data).
  - rewrite (readFile_directory _ _ H). intros [= _ <-]. simpl.
    unfold DeleteCategory, bind. rewrite (checkFileExists_found _ _ _ H). cbv beta iota.
    unfold Scanner_run. now rewrite H.
  - rewrite (readFile_missing _ _ H). intros [= _ <-]. simpl.
    now apply DeleteCategory_missing.
Qed.

(** ** More on category listings *)

Lemma ScanLines_no_LF (data : string) :
  Forall (fun l => has_byte LF l = false) (ScanLines data).
Proof.
  induction data as [|c data IH]; simpl; [constructor |].
  destruct (Ascii.eqb c LF) eqn:Hc.
  - constructor; [reflexivity | exact IH].
  - destruct (ScanLines data) as [|l ls].
    + repeat constructor. simpl. now rewrite Hc.
    + inversion IH as [|? ? Hl Hls]; subst.
      constructor; [simpl; now rewrite Hc, Hl | exact Hls].
Qed.

Lemma has_byte_dropCR c (l : string) :
  has_byte c l = false -> has_byte c (dropCR l) = false.
Proof.
  induction l as [|a l IH]; [reflexivity |].
  intros H. simpl in H. apply orb_false_iff in H as [Ha Hl].
  destruct l as [|b l].
  - simpl. destruct (Ascii.eqb a CR); [reflexivity | simpl; now rewrite Ha].
  - change (dropCR (String a (String b l))) with (String a (dropCR (String b l))).
    simpl. rewrite Ha. now apply IH.
Qed.

Lemma lenN_dropCR (l : string) : (lenN (dropCR l) <= lenN l)%N.
Proof.
  induction l as [|a l IH]; [reflexivity |].
  destruct l as [|b l].
  - simpl. destruct (Ascii.eqb a CR); simpl; lia.
  - change (dropCR (String a (String b l))) with (String a (dropCR (String b l))).
    cbn [lenN] in *. lia.
Qed.

(** The lines [DeleteCategory] and [readFile] get from a file can be
    written and read again unchanged, once none of them ends in a carriage
    return. *)
Lemma lines_of_safe (data : string) :
  lines_fit data -> Forall cr_free (lines_of data) -> Forall line_safe (lines_of data).
Proof.
  unfold lines_fit, lines_of. intros Hfit Hcr.
  pose proof (ScanLines_no_LF data) as Hlf.
  induction (ScanLines data) as [|l ls IH]; simpl in *; [constructor |].
  inversion Hfit as [|? ? Hl Hfit']; subst. inversion Hcr as [|? ? Hc Hcr']; subst.
  inversion Hlf as [|? ? Hn Hlf']; subst.
  constructor; [| now apply IH].
  split; [now apply has_byte_dropCR |]. split; [exact Hc |].
  pose proof (lenN_dropCR l). lia.
Qed.

Lemma Forall_kept {A} (P Q : A -> Prop) `{!forall x, Decision (Q x)} (l : list A) :
  Forall P l -> Forall P (filter Q l).
Proof.
  rewrite !Forall_forall. intros Hall x Hx. apply list_elem_of_filter in Hx as [_ Hx]. auto.
Qed.

Lemma unlines_read_back (ls : list string) :
  Forall line_safe ls -> lines_fit (unlines ls) /\ lines_of (unlines ls) = ls.
Proof.
  intros Hsafe.
  assert (Hraw : ScanLines (unlines ls) = ls).
  { apply ScanLines_unlines. eapply Forall_impl; [exact Hsafe |]. now intros l (? & _). }
  unfold lines_fit, lines_of. rewrite Hraw. split.
  - eapply Forall_impl; [exact Hsafe |]. now intros l (_ & _ & ?).
  - clear Hraw. induction Hsafe as [|l ls' (_ & Hl & _) _ IH]; simpl; [reflexivity |].
    now rewrite Hl, IH.
Qed.

Lemma label_filtered_out (label : string) (ls : list string) :
  label ∉ filter (fun l => l <> label) ls.
Proof. intros H. apply list_elem_of_filter in H as [Hne _]. now apply Hne. Qed.

(** X4.  After [DeleteCategory] has succeeded on a listing whose lines fit
    the scanner and do not end in a carriage return once read, [readFile]
    returns the former lines without the label, in their order, and the
    label is not among them. *)
Theorem DeleteCategory_then_readFile label fileName w data :
  files w !! fileName = Some (Reg data) ->
  lines_fit data ->
  Forall cr_free (lines_of data) ->
  exists w1,
    DeleteCategory label fileName w = (w1, Ok true) /\
    readFile fileName w1 = (w1, Ok (filter (fun l => l <> label) (lines_of data))) /\
    label ∉ filter (fun l => l <> label) (lines_of data).
Proof.
  intros H Hfit Hcr. eexists. split; [apply (DeleteCategory_fit _ _ _ _ H Hfit) |].
  split; [| apply label_filtered_out].
  apply readFile_unlines.
  - rewrite files_set_files. apply lookup_insert_eq.
  - apply Forall_kept. now apply lines_of_safe.
Qed.

(** X5.  Under the same conditions a second [DeleteCategory] of the same
    label succeeds and leaves the world exactly as the first one left
    it. *)
Theorem DeleteCategory_twice label fileName w data :
  files w !! fileName = Some (Reg data) ->
  lines_fit data ->
  Forall cr_free (lines_of data) ->
  exists w1,
    DeleteCategory label fileName w = (w1, Ok true) /\
    DeleteCategory label fileName w1 = (w1, Ok true).
Proof.
  intros H Hfit Hcr. eexists. split; [apply (DeleteCategory_fit _ _ _ _ H Hfit) |].
  set (kept := filter (fun l => l <> label) (lines_of data)).
  assert (Hsafe : Forall line_safe kept) by (apply Forall_kept; now apply lines_of_safe).
  destruct (unlines_read_back kept Hsafe) as [Hfit' Hlines].
  rewrite (DeleteCategory_fit label fileName _ (unlines kept)).
  - rewrite Hlines, (filter_absent label kept) by apply label_filtered_out.
    rewrite set_files_twice, files_set_files, insert_insert_eq. reflexivity.
  - rewrite files_set_files. apply lookup_insert_eq.
  - exact Hfit'.
Qed.

Lemma dropCR_snoc_CR (s : string) : dropCR (s +:+ String CR "") = s.
Proof.
  induction s as [|a s IH]; [reflexivity |].
  destruct s as [|b s].
  - reflexivity.
  - change (dropCR ((String a (String b s)) +:+ String CR ""))
      with (String a (dropCR (String b s +:+ String CR ""))).
    now rewrite IH.
Qed.

Lemma lenN_append (a b : string) : lenN (a +:+ b) = (lenN a + lenN b)%N.
Proof. induction a as [|c a IH]; simpl; [reflexivity | rewrite IH; lia]. Qed.

Lemma ScanLines_last_line (l : string) :
  has_byte LF l = false -> ScanLines (l +:+ newline) = [l].
Proof.
  intros H. rewrite <- (append_nil_r (l +:+ newline)), append_assoc.
  now rewrite (ScanLines_line l "" H).
Qed.

(** X6.  The scanner drops one carriage return from a line and
    [DeleteCategory] compares what is left: a line made of the label and two
    carriage returns is kept, written back with one, and from then on
    [readFile] reads it as the label itself. *)
Theorem DeleteCategory_keeps_double_CR label fileName w :
  has_byte LF label = false ->
  cr_free label ->
  (lenN label + 2 < MaxScanTokenSize)%N ->
  files w !! fileName = Some (Reg ((label +:+ String CR (String CR "")) +:+ newline)) ->
  exists w1,
    DeleteCategory label fileName w = (w1, Ok true) /\
    files w1 !! fileName = Some (Reg ((label +:+ String CR "") +:+ newline)) /\
    readFile fileName w1 = (w1, Ok [label]).
Proof.
  intros Hlf Hcr Hlen H.
  assert (Hlf2 : has_byte LF (label +:+ String CR (String CR "")) = false)
    by (rewrite has_byte_append, Hlf; reflexivity).
  assert (Hlf1 : has_byte LF (label +:+ String CR "") = false)
    by (rewrite has_byte_append, Hlf; reflexivity).
  assert (Hraw : ScanLines ((label +:+ String CR (String CR "")) +:+ newline) =
                 [label +:+ String CR (String CR "")]) by (now apply ScanLines_last_line).
  assert (Hraw1 : ScanLines ((label +:+ String CR "") +:+ newline) = [label +:+ String CR ""])
    by (now apply ScanLines_last_line).
  assert (Hfit : lines_fit ((label +:+ String CR (String CR "")) +:+ newline)).
  { unfold lines_fit. rewrite Hraw. repeat constructor. rewrite lenN_append. simpl. lia. }
  assert (Hdrop : dropCR (label +:+ String CR (String CR "")) = label +:+ String CR "").
  { change (String CR (String CR "")) with (String CR "" +:+ String CR "").
    rewrite <- append_assoc. apply dropCR_snoc_CR. }
  assert (Hne : label +:+ String CR "" <> label).
  { intros E. apply (f_equal lenN) in E. rewrite lenN_append in E. simpl in E. lia. }
  assert (Hkept : unlines (filter (fun l => l <> label)
                    (lines_of ((label +:+ String CR (String CR "")) +:+ newline))) =
                  (label +:+ String CR "") +:+ newline).
  { unfold lines_of. rewrite Hraw. cbn [map]. rewrite Hdrop.
    rewrite filter_cons, decide_True by exact Hne. rewrite filter_nil.
    cbn [unlines]. now rewrite append_nil_r, append_assoc. }
  eexists. split; [apply (DeleteCategory_fit _ _ _ _ H Hfit) |].
  rewrite Hkept, files_set_files. split; [apply lookup_insert_eq |].
  rewrite (readFile_fit _ _ ((label +:+ String CR "") +:+ newline)).
  - unfold lines_of. rewrite Hraw1. cbn [map]. now rewrite dropCR_snoc_CR.
  - rewrite files_set_files. apply lookup_insert_eq.
  - unfold lines_fit. rewrite Hraw1. repeat constructor. rewrite lenN_append. simpl. lia.
Qed.


(** ** More on [registerFile] *)

(** Without a snapshot the subject only has to exist. *)
Lemma registerFile_no_copy fileName categories w n db :
  files w !! fileName = Some n ->
  files w !! ".catodb" = Some (Reg db) ->
  registerFile fileName categories false w =
  (set_files (tick w)
     (<[".catodb" := Reg (db +:+ (fileName +:+ "|" +:+ String.concat "," categories +:+ "|" +:+
                                  Format_RFC3339 (wall_clock (ticks w))) +:+ newline)]>
        (files w)),
   Ok true).
Proof.
  intros H Hdb. rewrite (registerFile_found _ _ _ _ _ H).
  unfold bind at 1. rewrite (open_registry _ db) by exact Hdb.
  unfold bind at 1. unfold ret at 1. unfold bind.
  rewrite (append_registry _ db) by exact Hdb. reflexivity.
Qed.

Lemma registerFile_registry_directory fileName categories copy w n :
  files w !! fileName = Some n ->
  files w !! ".catodb" = Some Dir ->
  registerFile fileName categories copy w =
  (tick w, Err (Errorf_w "failed to open .catodb for writing"
                  (PathError "open" ".catodb" EISDIR))).
Proof.
  intros H Hdb. rewrite (registerFile_found _ _ _ _ _ H).
  unfold bind, on_error, os_OpenFile. change (files (tick w)) with (files w).
  now rewrite Hdb.
Qed.

(** Every way a call of [registerFile] can go. *)
Lemma registerFile_cases fileName categories copy w :
  registerFile fileName categories copy w =
  match files w !! fileName, files w !! ".catodb" with
  | None, _ => (w, Err (errors_New "file does not exist"))
  | Some _, None =>
      (tick w, Err (Errorf_w "failed to open .catodb for writing"
                      (PathError "open" ".catodb" ENOENT)))
  | Some _, Some Dir =>
      (tick w, Err (Errorf_w "failed to open .catodb for writing"
                      (PathError "open" ".catodb" EISDIR)))
  | Some n, Some (Reg db) =>
      let record := (fileName +:+ "|" +:+ String.concat "," categories +:+ "|" +:+
                     Format_RFC3339 (wall_clock (ticks w))) +:+ newline in
      if copy then
        match files w !! (fileName +:+ ".copy"), n with
        | Some Dir, _ =>
            (tick w, Err (Errorf_w "failed to create copy of file"
                            (PathError "open" (fileName +:+ ".copy") EISDIR)))
        | _, Dir =>
            (set_files (tick w) (<[fileName +:+ ".copy" := Reg ""]> (files w)),
             Err (Errorf_w "failed to copy file" (PathError "read" fileName EISDIR)))
        | _, Reg data =>
            (set_files (tick w)
               (<[".catodb" := Reg (db +:+ record)]>
                  (<[fileName +:+ ".copy" := Reg data]> (files w))), Ok true)
        end
      else (set_files (tick w) (<[".catodb" := Reg (db +:+ record)]> (files w)), Ok true)
  end.
Proof.
  destruct (files w !! fileName) as [n|] eqn:H.
  2: { now apply registerFile_missing_subject. }
  destruct (files w !! ".catodb") as [[db|]|] eqn:Hdb.
  2: { now apply (registerFile_registry_directory _ _ _ _ n). }
  2: { now apply (registerFile_missing_registry _ _ _ _ n). }
  cbv zeta. destruct copy.
  2: { now apply (registerFile_no_copy _ _ _ n). }
  destruct (files w !! (fileName +:+ ".copy")) as [[x|]|] eqn:Hd.
  2: { apply (registerFile_snapshot_fails _ _ _ n db); [exact H | exact Hdb |].
       now apply snapshot_blocked. }
  all: destruct n as [data|].
  all: try (rewrite (registerFile_appends _ _ true _ data db H Hdb)
              by (intros _; rewrite Hd; discriminate); reflexivity).
  all: apply (registerFile_snapshot_fails _ _ _ Dir db); [exact H | exact Hdb |];
    rewrite snapshot_created
      by (change (files (tick w)) with (files w); rewrite Hd; discriminate);
    change (files (tick w)) with (files w); now rewrite H.
Qed.

(** X8.  [registerFile] succeeds exactly when the subject exists, the
    registry is a regular file and, if a snapshot is asked for, the subject
    is a regular file and the snapshot's name is not taken by a directory.
    Without a snapshot a directory can be registered. *)
Theorem registerFile_succeeds_iff fileName categories copy w :
  (exists w', registerFile fileName categories copy w = (w', Ok true)) <->
  (exists n, files w !! fileName = Some n /\
             (copy = true -> (exists data, n = Reg data) /\
                             files w !! (fileName +:+ ".copy") <> Some Dir)) /\
  (exists db, files w !! ".catodb" = Some (Reg db)).
Proof.
  rewrite registerFile_cases. split.
  - intros (w' & Hr).
    destruct (files w !! fileName) as [n|]; [| discriminate].
    destruct (files w !! ".catodb") as [[db|]|]; [| discriminate | discriminate].
    split; [| now exists db]. exists n. split; [reflexivity |].
    intros ->. cbv zeta in Hr.
    destruct (files w !! (fileName +:+ ".copy")) as [[x|]|], n as [data|];
      try discriminate; (split; [now exists data | discriminate]).
  - intros ((n & -> & Hcopy) & (db & ->)). cbv zeta. destruct copy.
    + destruct (Hcopy eq_refl) as ((data & ->) & Hd).
      destruct (files w !! (fileName +:+ ".copy")) as [[x|]|]; [| congruence |]; eauto.
    + eauto.
Qed.

(** X9.  A successful [registerFile] has read the clock once and appended
    to the registry exactly one line, made of the path, the categories
    joined by commas and the clock reading, separated by [|]; with a
    snapshot asked for, the snapshot then holds the bytes of the subject. *)
Theorem registerFile_effect fileName categories copy w w' b :
  registerFile fileName categories copy w = (w', Ok b) ->
  b = true /\ ticks w' = S (ticks w) /\
  exists db,
    files w !! ".catodb" = Some (Reg db) /\
    files w' !! ".catodb" =
      Some (Reg (db +:+ (fileName +:+ "|" +:+ String.concat "," categories +:+ "|" +:+
                         Format_RFC3339 (wall_clock (ticks w))) +:+ newline)) /\
    (copy = true ->
     exists data, files w !! fileName = Some (Reg data) /\
                  files w' !! (fileName +:+ ".copy") = Some (Reg data)).
Proof.
  rewrite registerFile_cases. pose proof (copy_not_registry fileName) as Hne.
  destruct (files w !! fileName) as [n|]; [| discriminate].
  destruct (files w !! ".catodb") as [[db|]|]; [| discriminate | discriminate].
  cbv zeta. destruct copy.
  - destruct (files w !! (fileName +:+ ".copy")) as [[x|]|], n as [data|];
      try discriminate; intros [= <- <-];
      (split; [reflexivity |]); (split; [reflexivity |]); exists db;
      (split; [reflexivity |]); rewrite files_set_files;
      (split; [apply lookup_insert_eq |]); intros _; exists data;
      (split; [reflexivity |]);
      (rewrite lookup_insert_ne by (intros E; now apply Hne)); apply lookup_insert_eq.
  - intros [= <- <-]. split; [reflexivity |]. split; [reflexivity |]. exists db.
    split; [reflexivity |]. rewrite files_set_files. split; [apply lookup_insert_eq |].
    discriminate.
Qed.


(** ** More on [format] *)

Lemma two_digits_digits a b lo hi :
  two_digits a b lo hi = true -> is_digit a = true /\ is_digit b = true.
Proof.
  unfold two_digits. intros H.
  apply andb_true_iff in H as [H _]. now apply andb_true_iff in H.
Qed.

Lemma has_byte_cons c a s :
  has_byte c (String a s) = true -> a = c \/ has_byte c s = true.
Proof.
  simpl. intros H. apply orb_true_iff in H as [H|H]; [left | now right].
  now apply Ascii.eqb_eq.
Qed.

(** A formatted clock reading is made of digits and of [-], [T], [:], [Z]
    and [+] only. *)
Lemma Format_RFC3339_bytes (t : time_Time) (c : ascii) :
  valid_time t -> has_byte c (Format_RFC3339 t) = true -> stamp_byte c.
Proof.
  clear Regexp regexp_Compile MatchString wall_clock traversal.
  intros Hv.
  destruct (Format_RFC3339_layout t Hv)
    as (y1 & y2 & y3 & y4 & mo1 & mo2 & d1 & d2 & h1 & h2 & mi1 & mi2 & s1 & s2 & off &
        -> & Hy1 & Hy2 & Hy3 & Hy4 & Hmo & Hd & Hh & Hmi & Hs & Hoff).
  apply two_digits_digits in Hmo as [? ?], Hd as [? ?], Hh as [? ?], Hmi as [? ?], Hs as [? ?].
  unfold stamp_byte.
  repeat (let H := fresh in intros H; apply has_byte_cons in H as [<-|H]; [tauto | revert H]).
  destruct Hoff as [->|(sg & z1 & z2 & z3 & z4 & -> & Hsg & Hz1 & Hz2)].
  - intros Hb. apply has_byte_cons in Hb as [<-|Hb]; [tauto | discriminate].
  - apply two_digits_digits in Hz1 as [? ?], Hz2 as [? ?].
    repeat (let H := fresh in intros H; apply has_byte_cons in H as [<-|H]; [| revert H]);
      try discriminate; tauto.
Qed.

Lemma stamp_free_of (t : time_Time) (c : ascii) :
  valid_time t -> ~ stamp_byte c -> has_byte c (Format_RFC3339 t) = false.
Proof.
  intros Hv Hc. destruct (has_byte c (Format_RFC3339 t)) eqn:E; [| reflexivity].
  exfalso. now apply Hc, (Format_RFC3339_bytes t).
Qed.

Lemma not_stamp_byte (c : ascii) :
  is_digit c = false -> c <> "-"%char -> c <> "T"%char -> c <> ":"%char ->
  c <> "Z"%char -> c <> "+"%char -> ~ stamp_byte c.
Proof. unfold stamp_byte. intros Hd ? ? ? ? ? [H|H]; [congruence | tauto]. Qed.

Lemma bar_not_stamp : ~ stamp_byte "|"%char.
Proof. apply not_stamp_byte; [reflexivity | discriminate ..]. Qed.

Lemma LF_not_stamp : ~ stamp_byte LF.
Proof. apply not_stamp_byte; [reflexivity | discriminate ..]. Qed.

Lemma CR_not_stamp : ~ stamp_byte CR.
Proof. apply not_stamp_byte; [reflexivity | discriminate ..]. Qed.

(** X11.  For a path without [|], one or more categories without [|] and
    [,], and a valid clock reading, the line of [format] with the default
    separator splits on [|] into exactly three fields: the path, the
    comma-joined categories and the clock reading. *)
Theorem format_three_fields path categories w :
  has_byte "|" path = false ->
  Forall (fun c => has_byte "|" c = false) categories ->
  valid_time (wall_clock (ticks w)) ->
  exists line,
    format path categories "" w = (tick w, Ok line) /\
    Split "|" line =
      [path; String.concat "," categories; Format_RFC3339 (wall_clock (ticks w))].
Proof.
  intros Hp Hc Hv. eexists. split; [apply format_default |].
  rewrite Split_record; [| exact Hp | now apply has_byte_concat].
  rewrite Split_whole; [reflexivity |].
  apply stamp_free_of; [exact Hv | apply bar_not_stamp].
Qed.

(** X12.  When the path, the categories and the separator contain no line
    feed and the clock reading is valid, the line of [format] contains
    none: appended with its line feed it is one line of the registry. *)
Theorem format_single_line path categories separator w :
  has_byte LF path = false ->
  Forall (fun c => has_byte LF c = false) categories ->
  has_byte LF separator = false ->
  valid_time (wall_clock (ticks w)) ->
  exists line,
    format path categories separator w = (tick w, Ok line) /\
    has_byte LF line = false /\
    ScanLines (line +:+ newline) = [line].
Proof.
  intros Hp Hc Hs Hv.
  assert (Hstamp : has_byte LF (Format_RFC3339 (wall_clock (ticks w))) = false)
    by (apply stamp_free_of; [exact Hv | apply LF_not_stamp]).
  assert (Hcat : has_byte LF (String.concat "," categories) = false)
    by (now apply has_byte_concat).
  destruct (String.eqb_spec separator "") as [->|Hne].
  - eexists. split; [apply format_default |].
    assert (Hline : has_byte LF (path +:+ "|" +:+ String.concat "," categories +:+ "|" +:+
                                 Format_RFC3339 (wall_clock (ticks w))) = false)
      by (rewrite !has_byte_append, Hp, Hcat, Hstamp; reflexivity).
    split; [exact Hline | now apply ScanLines_last_line].
  - eexists. split; [now apply format_custom |].
    assert (Hline : has_byte LF (path +:+ separator +:+ String.concat "," categories +:+
                                 separator +:+ Format_RFC3339 (wall_clock (ticks w))) = false)
      by (rewrite !has_byte_append, Hp, Hs, Hcat, Hstamp; reflexivity).
    split; [exact Hline | now apply ScanLines_last_line].
Qed.

(** ** The check of [TestFormat] *)

Lemma substring_whole_prefix (p rest : string) :
  substring 0 (String.length p) (p +:+ rest) = p.
Proof.
  induction p as [|a p IH]; simpl.
  - destruct rest; reflexivity.
  - now rewrite IH.
Qed.

Lemma substring_is_prefix (p : string) : forall r,
  substring 0 (String.length p) r = p -> exists rest, r = p +:+ rest.
Proof.
  induction p as [|a p IH]; intros r H.
  - now exists r.
  - destruct r as [|b r]; [discriminate |]. simpl in H. injection H as <- H.
    destruct (IH r H) as [rest ->]. now exists rest.
Qed.

Lemma matchesFormat_true (result expectedPrefix : string) :
  matchesFormat result expectedPrefix = true <->
  exists rest, rest <> "" /\ result = expectedPrefix +:+ rest.
Proof.
  unfold matchesFormat. split.
  - destruct (Nat.leb_spec (String.length result) (String.length expectedPrefix)) as [|Hlt];
      [discriminate |].
    intros H. apply String.eqb_eq in H. destruct (substring_is_prefix _ _ H) as [rest ->].
    exists rest. split; [| reflexivity]. intros ->.
    rewrite append_nil_r in Hlt. lia.
  - intros (rest & Hne & ->).
    destruct (Nat.leb_spec (String.length (expectedPrefix +:+ rest))
                (String.length expectedPrefix)) as [Hle|_].
    + rewrite length_append in Hle. destruct rest; [congruence | simpl in Hle; lia].
    + rewrite substring_whole_prefix. apply String.eqb_refl.
Qed.

Lemma Format_RFC3339_nonempty (t : time_Time) : Format_RFC3339 t <> "".
Proof.
  unfold Format_RFC3339. intros H. apply (f_equal String.length) in H.
  rewrite length_append in H. simpl in H. lia.
Qed.

(** X13.  [matchesFormat] holds exactly when the result is the prefix
    followed by at least one more byte, and it holds of every line [format]
    returns and the path, separator, joined categories and separator that
    [TestFormat] expects in front, the empty separator standing for [|]. *)
Theorem TestFormat_check_always_holds path categories separator w :
  (forall result expectedPrefix,
     matchesFormat result expectedPrefix = true <->
     exists rest, rest <> "" /\ result = expectedPrefix +:+ rest) /\
  exists line,
    format path categories separator w = (tick w, Ok line) /\
    matchesFormat line
      (let sep := if String.eqb separator "" then "|" else separator in
       path +:+ sep +:+ String.concat "," categories +:+ sep) = true.
Proof.
  split; [apply matchesFormat_true |].
  destruct (String.eqb_spec separator "") as [->|Hne]; cbv zeta.
  - eexists. split; [apply format_default |].
    apply matchesFormat_true. exists (Format_RFC3339 (wall_clock (ticks w))).
    split; [apply Format_RFC3339_nonempty |]. now rewrite !append_assoc.
  - eexists. split; [now apply format_custom |].
    apply matchesFormat_true. exists (Format_RFC3339 (wall_clock (ticks w))).
    split; [apply Format_RFC3339_nonempty |]. now rewrite !append_assoc.
Qed.

(** ** More on the query *)

(** [containsAll] is membership of every element. *)
Lemma containsAll_members (set subset : list string) :
  containsAll set subset = true <-> Forall (fun s => s ∈ set) subset.
Proof.
  clear Regexp regexp_Compile MatchString wall_clock traversal.
  unfold containsAll.
  assert (Hmap : forall (l : list string) (acc : gset string) x,
            x ∈ fold_left (fun (m : gset string) s => {[s]} ∪ m) l acc <-> x ∈ l \/ x ∈ acc).
  { induction l as [|s l IH]; intros acc x; simpl.
    - rewrite elem_of_nil. tauto.
    - rewrite IH, elem_of_cons, elem_of_union, elem_of_singleton. tauto. }
  induction subset as [|s subset IH]; simpl.
  - split; [constructor | reflexivity].
  - rewrite Forall_cons, <- IH.
    destruct (bool_decide_reflect
                (s ∈ fold_left (fun (m : gset string) s => {[s]} ∪ m) set ∅)) as [Hin|Hout].
    + apply Hmap in Hin as [Hin|Hin]; [tauto | now apply elem_of_empty in Hin].
    + split; [discriminate |]. intros [Hin _]. exfalso. apply Hout, Hmap. now left.
Qed.

Lemma lines_fit_test (data : string) : lines_fit_b data = true <-> lines_fit data.
Proof.
  unfold lines_fit_b, lines_fit. rewrite forallb_forall, Forall_forall.
  split; intros H l Hl; apply N.ltb_lt, H; now apply list_elem_of_In.
Qed.

(** Every way a call of [get] can go. *)
Lemma get_cases regex required w :
  get regex required w =
  match files w !! ".catodb" with
  | None => (w, Err (errors_New "file does not exist"))
  | Some n =>
      match regexp_Compile regex with
      | Err e => (w, Err e)
      | Ok re =>
          match n with
          | Dir => (w, Err (PathError "read" ".catodb" EISDIR))
          | Reg data =>
              if lines_fit_b data then (w, Ok (get_spec re required (lines_of data)))
              else (w, Err bufio_ErrTooLong)
          end
      end
  end.
Proof.
  destruct (files w !! ".catodb") as [n|] eqn:H; [| now apply get_missing].
  destruct (regexp_Compile regex) as [re|e] eqn:Hre.
  - destruct n as [data|].
    + destruct (lines_fit_b data) eqn:Hb.
      * apply get_fit; [exact H | exact Hre | now apply lines_fit_test].
      * apply (get_too_long _ _ _ data re); [exact H | exact Hre |].
        intros Hfit. apply lines_fit_test in Hfit. congruence.
    + unfold get, bind. rewrite (checkFileExists_found _ _ _ H). cbv beta iota.
      unfold lift. rewrite Hre. unfold Scanner_run. now rewrite H.
  - unfold get, bind. rewrite (checkFileExists_found _ _ _ H). cbv beta iota.
    unfold lift. now rewrite Hre.
Qed.

Lemma path_field_free (line : string) : has_byte "|" (path_field line) = false.
Proof.
  unfold path_field. pose proof (Split_fields_free "|" line) as H.
  destruct (Split "|" line) as [|f fs]; [reflexivity |].
  now inversion H.
Qed.

(** X14.  [get] changes nothing, whatever it returns, and every path it
    returns matches the compiled pattern and contains no [|]: a subject
    registered under a path with [|] is never returned under its own
    name. *)
Theorem get_reads_only_and_sound regex required w :
  (forall w' r, get regex required w = (w', r) -> w' = w) /\
  (forall w' ps re,
     get regex required w = (w', Ok ps) -> regexp_Compile regex = Ok re ->
     Forall (fun p => MatchString re p = true /\ has_byte "|" p = false) ps).
Proof.
  rewrite get_cases. split.
  - intros w' r.
    destruct (files w !! ".catodb") as [[data|]|], (regexp_Compile regex) as [re|e];
      try destruct (lines_fit_b data); now intros [= <- _].
  - intros w' ps re Hr Hre. rewrite Hre in Hr.
    destruct (files w !! ".catodb") as [[data|]|]; try discriminate.
    destruct (lines_fit_b data); [| discriminate]. injection Hr as _ <-.
    unfold get_spec. apply Forall_forall. intros p Hp.
    apply list_elem_of_In, in_map_iff in Hp as (line & <- & Hline).
    apply list_elem_of_In, list_elem_of_filter in Hline as [(_ & Hm & _) _].
    split; [exact Hm | apply path_field_free].
Qed.

Lemma get_spec_weaken re (r1 r2 lines : list string) :
  (forall c, c ∈ r2 -> c ∈ r1) ->
  sublist (get_spec re r1 lines) (get_spec re r2 lines).
Proof.
  intros Hsub. unfold get_spec.
  induction lines as [|line lines IH]; [constructor |].
  rewrite !filter_cons.
  destruct (decide (selects re r1 line)) as [(Hl & Hm & Hall)|Hno].
  - rewrite decide_True.
    + simpl. now apply sublist_skip.
    + split; [exact Hl |]. split; [exact Hm |].
      rewrite Forall_forall in Hall |- *. auto.
  - destruct (decide (selects re r2 line)); simpl; [apply sublist_cons |]; exact IH.
Qed.

(** X15.  Asking [get] for more categories never adds results: when every
    category of one query is also required by a second, the answer to the
    second is the answer to the first with some paths left out, order and
    repetitions kept; the two calls fail together.  The answer therefore
    depends only on the set of required categories. *)
Theorem get_requires_more_returns_less regex r1 r2 w :
  (forall c, c ∈ r2 -> c ∈ r1) ->
  (forall ps2, get regex r2 w = (w, Ok ps2) ->
     exists ps1, get regex r1 w = (w, Ok ps1) /\ sublist ps1 ps2) /\
  (forall e, get regex r2 w = (w, Err e) -> get regex r1 w = (w, Err e)).
Proof.
  intros Hsub. rewrite !get_cases.
  destruct (files w !! ".catodb") as [[data|]|], (regexp_Compile regex) as [re|e];
    try destruct (lines_fit_b data); split; try discriminate; try (intros ? [= <-]; eauto; fail).
  intros ps2 [= <-]. eexists. split; [reflexivity |]. now apply get_spec_weaken.
Qed.

(** X16.  [containsAll] is a preorder on lists read as sets: nothing is
    required of an empty second list, every list contains itself, the
    relation is transitive, an empty first list contains no element, and the
    answer does not change when either list is replaced by one with the same
    members. *)
Theorem containsAll_is_set_inclusion :
  (forall set, containsAll set [] = true) /\
  (forall set, containsAll set set = true) /\
  (forall a b c, containsAll a b = true -> containsAll b c = true ->
                 containsAll a c = true) /\
  (forall x subset, containsAll [] (x :: subset) = false) /\
  (forall set set' subset subset',
     (forall c, c ∈ set <-> c ∈ set') -> (forall c, c ∈ subset <-> c ∈ subset') ->
     containsAll set subset = containsAll set' subset').
Proof.
  clear Regexp regexp_Compile MatchString wall_clock traversal.
  split; [intros set; now apply containsAll_members |].
  split; [intros set; apply containsAll_members, Forall_forall; auto |].
  split.
  { intros a b c Hab Hbc. apply containsAll_members in Hab, Hbc. apply containsAll_members.
    rewrite Forall_forall in Hab, Hbc |- *. auto. }
  split.
  { intros x subset. destruct (containsAll [] (x :: subset)) eqn:E; [| reflexivity].
    apply containsAll_members in E. inversion E as [|? ? Hx _]; subst.
    now apply elem_of_nil in Hx. }
  intros set set' subset subset' Hs Hsub.
  destruct (containsAll set subset) eqn:E1, (containsAll set' subset') eqn:E2;
    try reflexivity; exfalso.
  - apply containsAll_members in E1.
    assert (containsAll set' subset' = true); [| congruence].
    apply containsAll_members. rewrite Forall_forall in E1 |- *.
    intros c Hc. apply Hs, E1, Hsub, Hc.
  - apply containsAll_members in E2.
    assert (containsAll set subset = true); [| congruence].
    apply containsAll_members. rewrite Forall_forall in E2 |- *.
    intros c Hc. apply Hs, E2, Hsub, Hc.
Qed.

(** X17.  [strings.Split] on one byte loses nothing: joining the fields
    with the separator gives the string back, no field contains the
    separator, and there is one field more than there are separators. *)
Theorem Split_join_inverse (sep : ascii) (s : string) :
  String.concat (String sep "") (Split sep s) = s /\
  Forall (fun f => has_byte sep f = false) (Split sep s) /\
  length (Split sep s) =
    S (length (List.filter (fun c => Ascii.eqb c sep) (list_ascii_of_string s))).
Proof.
  split; [| split; [apply Split_fields_free |]].
  - induction s as [|c s IH]; [reflexivity |].
    cbn [Split]. pose proof (Split_nonempty sep s) as Hne.
    destruct (Ascii.eqb c sep) eqn:Hc.
    + apply Ascii.eqb_eq in Hc as ->.
      destruct (Split sep s) as [|p ps]; [congruence |].
      rewrite concat_cons2, IH. reflexivity.
    + destruct (Split sep s) as [|p [|q ps]]; [congruence | |].
      * cbn [String.concat] in *. now rewrite IH.
      * rewrite concat_cons2 in *. rewrite <- IH. reflexivity.
  - induction s as [|c s IH]; [reflexivity |].
    simpl. pose proof (Split_nonempty sep s) as Hne.
    destruct (Ascii.eqb c sep); simpl.
    + now rewrite IH.
    + destruct (Split sep s) as [|p ps]; [congruence |]. exact IH.
Qed.

(** ** Files that end in a line feed *)

Lemma ScanLines_nonempty (s : string) : s <> "" -> ScanLines s <> [].
Proof.
  destruct s as [|c s]; [congruence |]. intros _. simpl.
  destruct (Ascii.eqb c LF); [discriminate |]. destruct (ScanLines s); discriminate.
Qed.

Lemma terminated_tail c (d : string) :
  terminated (String c d) -> terminated d /\ (Ascii.eqb c LF = false -> d <> "").
Proof.
  intros [H|H]; [discriminate |]. destruct d as [|b d].
  - split; [now left |]. simpl in H. injection H as ->. discriminate.
  - split; [right; exact H | discriminate].
Qed.

(** What is appended to a terminated file starts on a line of its own. *)
Lemma ScanLines_app (a b : string) :
  terminated a -> ScanLines (a +:+ b) = ScanLines a ++ ScanLines b.
Proof.
  induction a as [|c a IH]; intros Ht; [reflexivity |].
  apply terminated_tail in Ht as [Ht Hne]. specialize (IH Ht).
  simpl. rewrite IH. destruct (Ascii.eqb c LF); [reflexivity |].
  pose proof (ScanLines_nonempty a (Hne eq_refl)).
  destruct (ScanLines a); [congruence | reflexivity].
Qed.

(** A terminated file is the lines of it, each followed by a line feed. *)
Lemma unlines_ScanLines (data : string) :
  terminated data -> unlines (ScanLines data) = data.
Proof.
  induction data as [|c d IH]; intros Ht; [reflexivity |].
  apply terminated_tail in Ht as [Ht Hne]. specialize (IH Ht).
  cbn [ScanLines]. destruct (Ascii.eqb c LF) eqn:Hc.
  - apply Ascii.eqb_eq in Hc as ->.
    change (unlines ("" :: ScanLines d)) with (String LF (unlines (ScanLines d))).
    now rewrite IH.
  - pose proof (ScanLines_nonempty d (Hne eq_refl)).
    destruct (ScanLines d) as [|l ls]; [congruence |].
    change (unlines (String c l :: ls)) with (String c (unlines (l :: ls))).
    now rewrite IH.
Qed.

Lemma terminated_snoc (a l : string) : terminated (a +:+ l +:+ newline).
Proof.
  right. rewrite <- append_assoc. now rewrite last_byte_append.
Qed.

Lemma dropCR_last (l : string) c :
  last_byte l = Some c -> c <> CR -> dropCR l = l.
Proof.
  induction l as [|a l IH]; [reflexivity |]. intros H Hc.
  destruct l as [|b l].
  - simpl in *. injection H as ->.
    destruct (Ascii.eqb_spec c CR); [congruence | reflexivity].
  - change (dropCR (String a (String b l))) with (String a (dropCR (String b l))).
    f_equal. now apply IH.
Qed.

Lemma map_dropCR_id (ls : list string) : Forall cr_free ls -> map dropCR ls = ls.
Proof. induction 1 as [|l ls Hl _ IH]; simpl; [reflexivity | now rewrite Hl, IH]. Qed.

(** X18.  On a listing that ends in a line feed, has no carriage return
    at the end of a line and does not hold the label, [DeleteCategory]
    succeeds and leaves the world exactly as it was: the rewrite reproduces
    the file byte for byte. *)
Theorem DeleteCategory_absent_label_changes_nothing label fileName w data :
  files w !! fileName = Some (Reg data) ->
  lines_fit data ->
  terminated data ->
  Forall cr_free (ScanLines data) ->
  label ∉ ScanLines data ->
  DeleteCategory label fileName w = (w, Ok true).
Proof.
  intros H Hfit Hterm Hcr Habsent.
  rewrite (DeleteCategory_fit _ _ _ _ H Hfit). unfold lines_of.
  rewrite (map_dropCR_id _ Hcr), (filter_absent _ _ Habsent), (unlines_ScanLines _ Hterm).
  now rewrite (insert_id _ _ _ H), set_files_same.
Qed.

(** ** Registering and then querying *)

Lemma get_spec_app re required (a b : list string) :
  get_spec re required (a ++ b) = get_spec re required a ++ get_spec re required b.
Proof. unfold get_spec. now rewrite filter_app, map_app. Qed.

(** How the query rule reads a record written by [format]. *)
Lemma get_spec_record re required path (categories : list string) stamp :
  has_byte "|" path = false ->
  categories <> [] ->
  Forall (fun c => has_byte "|" c = false /\ has_byte "," c = false) categories ->
  get_spec re required [path +:+ "|" +:+ String.concat "," categories +:+ "|" +:+ stamp] =
  if MatchString re path && containsAll categories required then [path] else [].
Proof.
  clear regexp_Compile wall_clock traversal.
  intros Hp Hne Hall.
  assert (Hbar : Forall (fun c => has_byte "|" c = false) categories)
    by (eapply Forall_impl; [exact Hall | now intros c [? _]]).
  assert (Hcomma : Forall (fun c => has_byte "," c = false) categories)
    by (eapply Forall_impl; [exact Hall | now intros c [_ ?]]).
  assert (Hcat : has_byte "|" (String.concat "," categories) = false)
    by (now apply has_byte_concat).
  set (line := path +:+ "|" +:+ String.concat "," categories +:+ "|" +:+ stamp).
  assert (Hsplit : Split "|" line = path :: String.concat "," categories :: Split "|" stamp)
    by (now apply Split_record).
  assert (Hpf : path_field line = path) by (unfold path_field; now rewrite Hsplit).
  assert (Hcf : category_field line = categories).
  { unfold category_field. rewrite Hsplit. simpl. now apply (Split_concat ","%char). }
  unfold get_spec. rewrite filter_cons, filter_nil.
  destruct (decide (selects re required line)) as [(Hl & Hm & Hreq)|Hno].
  - rewrite Hpf in Hm. rewrite Hcf in Hreq. apply containsAll_members in Hreq.
    rewrite Hm, Hreq. simpl. now rewrite Hpf.
  - destruct (MatchString re path) eqn:Hm; [| reflexivity].
    destruct (containsAll categories required) eqn:Hc; [| reflexivity].
    exfalso. apply Hno. split; [| split].
    + rewrite Hsplit. simpl. pose proof (Split_length "|" stamp). lia.
    + now rewrite Hpf.
    + rewrite Hcf. now apply containsAll_members.
Qed.

(** X19.  Registration followed by a query.  Let the registry end in a
    line feed (or be empty) with lines that fit the scanner, and let the
    path have no [|] or line feed and the categories, at least one, no [|],
    [,] or line feed, the record fitting the scanner.  Then after a
    successful [registerFile] a [get] returns what it returned before,
    followed by the path when the pattern matches it and every required
    category is among those registered, and by nothing otherwise. *)
Theorem registerFile_then_get fileName categories copy regex required re w data db :
  files w !! fileName = Some (Reg data) ->
  files w !! ".catodb" = Some (Reg db) ->
  (copy = true -> files w !! (fileName +:+ ".copy") <> Some Dir) ->
  terminated db ->
  lines_fit db ->
  has_byte "|" fileName = false ->
  has_byte LF fileName = false ->
  categories <> [] ->
  Forall (fun c => has_byte "|" c = false /\ has_byte "," c = false) categories ->
  Forall (fun c => has_byte LF c = false) categories ->
  valid_time (wall_clock (ticks w)) ->
  (lenN (fileName +:+ "|" +:+ String.concat "," categories +:+ "|" +:+
         Format_RFC3339 (wall_clock (ticks w))) < MaxScanTokenSize)%N ->
  regexp_Compile regex = Ok re ->
  exists w1 before,
    get regex required w = (w, Ok before) /\
    registerFile fileName categories copy w = (w1, Ok true) /\
    get regex required w1 =
      (w1, Ok (before ++
               if MatchString re fileName && containsAll categories required
               then [fileName] else [])).
Proof.
  intros H Hdb Hdst Hterm Hfit Hbar Hlf Hne Hcats Hcatlf Hv Hlen Hre.
  set (stamp := Format_RFC3339 (wall_clock (ticks w))) in *.
  set (line := fileName +:+ "|" +:+ String.concat "," categories +:+ "|" +:+ stamp) in *.
  assert (Hstamp : has_byte LF stamp = false)
    by (apply stamp_free_of; [exact Hv | apply LF_not_stamp]).
  assert (Hline : has_byte LF line = false).
  { unfold line. rewrite !has_byte_append, Hlf, Hstamp.
    now rewrite (has_byte_concat LF "," categories eq_refl Hcatlf). }
  assert (Hcr : dropCR line = line).
  { destruct (Format_RFC3339_last _ Hv) as (c & Hc & Hcase). fold stamp in Hc.
    apply (dropCR_last _ c).
    - unfold line. rewrite <- !append_assoc. rewrite last_byte_append; [exact Hc |].
      intros E. rewrite E in Hc. discriminate.
    - intros ->. destruct Hcase as [Hz|Hd]; discriminate. }
  assert (Hraw : ScanLines (db +:+ line +:+ newline) = ScanLines db ++ [line]).
  { rewrite (ScanLines_app _ _ Hterm). now rewrite (ScanLines_last_line _ Hline). }
  assert (Hfit' : lines_fit (db +:+ line +:+ newline)).
  { unfold lines_fit. rewrite Hraw. apply Forall_app. split; [exact Hfit |].
    repeat constructor. exact Hlen. }
  assert (Hlines : lines_of (db +:+ line +:+ newline) = lines_of db ++ [line]).
  { unfold lines_of. rewrite Hraw, map_app. simpl. now rewrite Hcr. }
  eexists. exists (get_spec re required (lines_of db)).
  split; [now apply get_fit |].
  split; [apply (registerFile_appends _ _ _ _ _ _ H Hdb Hdst) |].
  rewrite (get_fit regex required _ (db +:+ line +:+ newline) re).
  - rewrite Hlines, get_spec_app. unfold line.
    now rewrite (get_spec_record re required fileName categories stamp Hbar Hne Hcats).
  - rewrite files_set_files. apply lookup_insert_eq.
  - exact Hre.
  - exact Hfit'.
Qed.

(** ** More on bulk registration *)

Lemma registerFiles_succeeded folder regex w w' ps :
  registerFiles folder regex w = (w', Ok ps) ->
  exists re, regexp_Compile regex = Ok re /\
             bulk_ok re (traversal (files w) folder) w w' ps.
Proof.
  unfold registerFiles, bind, lift, filepath_Walk.
  destruct (regexp_Compile regex) as [re|e]; [| discriminate].
  intros Hr. exists re. split; [reflexivity |].
  destruct (bulk_total re (traversal (files w) folder) w)
    as [(w2 & ps2 & Hok)|(pre & v & post & w1 & ps1 & w2 & e & Hvs & Hok & Hf)].
  - rewrite (Walk_loop_ok _ _ _ _ _ Hok) in Hr. unfold ret in Hr.
    injection Hr as <- <-. exact Hok.
  - rewrite Hvs, (Walk_loop_fails _ _ _ _ _ _ _ _ _ Hok Hf) in Hr. discriminate.
Qed.




(** ** The set-up of the tests *)




(** ** Snapshots of a bulk registration *)

Lemma insert_keeps_regular (m : gmap string node) k x p :
  (exists d, m !! p = Some (Reg d)) -> exists d, <[k := Reg x]> m !! p = Some (Reg d).
Proof.
  intros (d & Hd). destruct (decide (k = p)) as [->|Hne].
  - exists x. apply lookup_insert_eq.
  - exists d. now rewrite lookup_insert_ne.
Qed.

(** [registerFile] never removes a regular file or turns it into anything
    else. *)
Lemma registerFile_keeps_regular fileName categories copy w w' r p :
  registerFile fileName categories copy w = (w', r) ->
  (exists d, files w !! p = Some (Reg d)) -> exists d, files w' !! p = Some (Reg d).
Proof.
  rewrite registerFile_cases. intros Hr Hp.
  destruct (files w !! fileName) as [n|]; [| now injection Hr as <- _].
  destruct (files w !! ".catodb") as [[db|]|];
    [| now injection Hr as <- _ | now injection Hr as <- _].
  cbv zeta in Hr. destruct copy.
  - destruct (files w !! (fileName +:+ ".copy")) as [[x|]|], n as [data|];
      injection Hr as <- _; try exact Hp; rewrite files_set_files;
      repeat apply insert_keeps_regular; exact Hp.
  - injection Hr as <- _. rewrite files_set_files. now apply insert_keeps_regular.
Qed.

Lemma registerFile_snapshot_made fileName categories w w' b :
  registerFile fileName categories true w = (w', Ok b) ->
  (exists d, files w' !! fileName = Some (Reg d)) /\
  (exists d, files w' !! (fileName +:+ ".copy") = Some (Reg d)).
Proof.
  intros Hr. pose proof Hr as Hcases. rewrite registerFile_cases in Hcases.
  pose proof (copy_not_registry fileName) as Hne.
  destruct (files w !! fileName) as [n|] eqn:H; [| discriminate].
  destruct (files w !! ".catodb") as [[db|]|]; try discriminate. cbv zeta in Hcases.
  destruct (files w !! (fileName +:+ ".copy")) as [[x|]|], n as [data|]; try discriminate.
  all: split; [apply (registerFile_keeps_regular _ _ _ _ _ _ _ Hr); now exists data |].
  all: injection Hcases as <- _; exists data; rewrite files_set_files;
    rewrite lookup_insert_ne by (intros E; now apply Hne); apply lookup_insert_eq.
Qed.

Lemma bulk_ok_snapshots re vs w w' ps :
  bulk_ok re vs w w' ps ->
  (forall p, (exists d, files w !! p = Some (Reg d)) ->
             exists d, files w' !! p = Some (Reg d)) /\
  (forall p, p ∈ ps ->
     (exists d, files w' !! p = Some (Reg d)) /\
     (exists d, files w' !! (p +:+ ".copy") = Some (Reg d))).
Proof.
  induction 1 as [w | path info vs w w' ps Hc _ IH
                    | path info vs w categories w1 w' ps Hc Hread Hreg _ IH].
  - split; [auto |]. intros p Hp. now apply elem_of_nil in Hp.
  - exact IH.
  - destruct IH as [Hkeep Hsnap]. split.
    + intros p Hp. apply Hkeep. now apply (registerFile_keeps_regular _ _ _ _ _ _ _ Hreg).
    + intros p Hp. apply elem_of_cons in Hp as [->|Hp]; [| now apply Hsnap].
      destruct (registerFile_snapshot_made _ _ _ _ _ Hreg) as [Hs Hd].
      split; now apply Hkeep.
Qed.

(** X22.  When [registerFiles] succeeds, every returned path is a regular
    file with a snapshot beside it, and no regular file that existed before
    has disappeared. *)
Theorem registerFiles_snapshots folder regex w w' ps :
  registerFiles folder regex w = (w', Ok ps) ->
  (forall p, p ∈ ps ->
     (exists d, files w' !! p = Some (Reg d)) /\
     (exists d, files w' !! (p +:+ ".copy") = Some (Reg d))) /\
  (forall p d, files w !! p = Some (Reg d) -> exists d', files w' !! p = Some (Reg d')).
Proof.
  intros Hr. destruct (registerFiles_succeeded _ _ _ _ _ Hr) as (re & _ & Hok).
  destruct (bulk_ok_snapshots _ _ _ _ _ Hok) as [Hkeep Hsnap].
  split; [exact Hsnap |]. intros p d Hp. apply Hkeep. now exists d.
Qed.

End Catobase.

(** ** The theorems at the package's own test inputs *)

(** C1.  [TestRegisterFile] expects the second registration, with the
    category [NonExistent], to fail with "some categories do not exist".
    The code has no such check: the call succeeds and appends a record. *)
Theorem registerFile_accepts_unknown_category :
  exists w1 w2,
    registerFile example_clock "test_register_file.txt" ["Books"; "Movies"] true
      register_world = (w1, Ok true) /\
    registerFile example_clock "test_register_file.txt" ["NonExistent"] false w1 =
      (w2, Ok true) /\
    files w2 !! ".catodb" =
      Some (Reg (lines2 "test_register_file.txt|Books,Movies|2023-07-01T00:00:00Z"
                        "test_register_file.txt|NonExistent|2023-07-01T00:00:01Z")).
Proof.
  do 2 eexists. split; [vm_compute; reflexivity |].
  split; vm_compute; reflexivity.
Qed.


Lemma lines_fit_b_spec (data : string) : lines_fit_b data = true <-> lines_fit data.
Proof.
  unfold lines_fit_b, lines_fit. rewrite forallb_forall, Forall_forall.
  split; intros H l Hl.
  - apply N.ltb_lt, H. now apply list_elem_of_In.
  - apply N.ltb_lt, H. now apply list_elem_of_In.
Qed.

Lemma long_line_does_not_fit : ~ lines_fit (long_line +:+ newline).
Proof.
  intros H. apply lines_fit_b_spec in H.
  assert (Hb : lines_fit_b (long_line +:+ newline) = false) by (vm_compute; reflexivity).
  congruence.
Qed.

Lemma long_world_lookup name :
  files (long_world name) !! name = Some (Reg (long_line +:+ newline)).
Proof. unfold long_world. cbn [files]. apply lookup_insert_eq. Qed.


Lemma lines_fit_listing :
  lines_fit ("Books" +:+ newline +:+ "Movies" +:+ newline +:+ "Music" +:+ newline).
Proof. unfold lines_fit. simpl. repeat constructor. Defined.


(** C2 as stated fails: a path with [|], an empty category sequence, and
    a category with [,] or [|] are not read back. *)
Lemma format_roundtrip_counterexample :
  (exists line, format example_clock "a|b" ["x"] "" (mkWorld ∅ 0) = (tick (mkWorld ∅ 0), Ok line) /\
                path_field line = "a" /\ ~ recovers "a|b" ["x"] line) /\
  (exists line, format example_clock "p" [] "" (mkWorld ∅ 0) = (tick (mkWorld ∅ 0), Ok line) /\
                category_field line = [""] /\ ~ recovers "p" [] line) /\
  (exists line, format example_clock "p" ["x,y"] "" (mkWorld ∅ 0) = (tick (mkWorld ∅ 0), Ok line) /\
                category_field line = ["x"; "y"] /\ ~ recovers "p" ["x,y"] line) /\
  (exists line, format example_clock "p" ["x|y"] "" (mkWorld ∅ 0) = (tick (mkWorld ∅ 0), Ok line) /\
                category_field line = ["x"] /\ ~ recovers "p" ["x|y"] line).
Proof.
  split; [| split; [| split]]; eexists; (split; [reflexivity |]); (split; [reflexivity |]).
  - intros (_ & Hp & _). vm_compute in Hp. discriminate.
  - intros (_ & _ & Hm). apply (elem_of_nil ""), Hm. vm_compute. apply list_elem_of_here.
  - intros (_ & _ & Hm).
    assert (Hx : "x" ∈ ["x,y"]) by (apply Hm; vm_compute; apply list_elem_of_here).
    apply list_elem_of_singleton in Hx. discriminate.
  - intros (_ & _ & Hm).
    assert (Hx : "x" ∈ ["x|y"]) by (apply Hm; vm_compute; apply list_elem_of_here).
    apply list_elem_of_singleton in Hx. discriminate.
Qed.

Lemma format_roundtrip_witness :
  has_byte "|" "/path/to/file1" = false /\
  exists line,
    format example_clock "/path/to/file1" ["Books"; "Movies"] "" (mkWorld ∅ 0) =
      (tick (mkWorld ∅ 0), Ok line) /\
    line = "/path/to/file1|Books,Movies|2023-07-01T00:00:00Z" /\
    path_field line = "/path/to/file1" /\
    category_field line = ["Books"; "Movies"] /\
    recovers "/path/to/file1" ["Books"; "Movies"] line.
Proof.
  split; [reflexivity |].
  destruct (format_roundtrip example_clock "/path/to/file1" ["Books"; "Movies"] (mkWorld ∅ 0))
    as (line & Hf & _ & Hp & Hc & Hr).
  - reflexivity.
  - discriminate.
  - repeat constructor.
  - exists line. split; [exact Hf |].
    split; [| split; [exact Hp | split; [exact Hc | exact Hr]]].
    rewrite format_default in Hf. injection Hf as <-. reflexivity.
Defined.

Lemma example_clock_valid (n : nat) : valid_time (example_clock n).
Proof.
  unfold valid_time, example_clock. cbn [year month day hour minute second zoneOffset].
  pose proof (Nat.mod_upper_bound n 60 ltac:(discriminate)). lia.
Qed.

Lemma format_default_shape_witness :
  valid_time (example_clock 0) /\
  is_rfc3339 "2023-07-01T00:00:00Z" = true /\
  format example_clock "/path/to/file" ["Books"; "Movies"] "" (mkWorld ∅ 0) =
    (tick (mkWorld ∅ 0), Ok "/path/to/file|Books,Movies|2023-07-01T00:00:00Z") /\
  format example_clock "/path/to/file" [] "" (mkWorld ∅ 0) =
    (tick (mkWorld ∅ 0), Ok "/path/to/file||2023-07-01T00:00:00Z").
Proof.
  split; [apply example_clock_valid |].
  destruct (format_default_shape example_clock "/path/to/file" ["Books"; "Movies"]
              (mkWorld ∅ 0) (example_clock_valid 0))
    as (stamp & -> & Hs & Hf & He & _).
  split; [exact Hs |]. split; [exact Hf | exact He].
Defined.

(** C7 as stated fails: on a registry that exists, with one line longer
    than the scanner takes, [get] returns an error and no paths; so it does
    for a pattern that does not compile. *)
Lemma get_long_line_counterexample :
  files (long_world ".catodb") !! ".catodb" = Some (Reg (long_line +:+ newline)) /\
  literal_compile "file" = Ok "file" /\
  lenN long_line = 70000%N /\
  get string literal_compile literal_match "file" [] (long_world ".catodb") =
    (long_world ".catodb", Err bufio_ErrTooLong) /\
  get string literal_compile literal_match "(" [] get_world =
    (get_world, Err (regexp_Error "(")).
Proof.
  split; [apply long_world_lookup |]. split; [reflexivity |].
  split; [vm_compute; reflexivity |]. split; [| vm_compute; reflexivity].
  apply (get_too_long string literal_compile literal_match "file" [] (long_world ".catodb")
           _ "file" (long_world_lookup ".catodb") eq_refl).
  exact long_line_does_not_fit.
Qed.

Lemma lines_fit_registry :
  lines_fit (lines2 "/path/to/file1|Books,Movies|2023-07-01T00:00:00Z"
                    "/path/to/file2|Music,Games|2023-07-01T00:00:00Z").
Proof. unfold lines_fit. simpl. repeat constructor. Defined.

Lemma get_returns_selected_paths_witness :
  get string literal_compile literal_match "file1" ["Books"] get_world =
    (get_world, Ok ["/path/to/file1"]) /\
  get string literal_compile literal_match "file" [] get_world =
    (get_world, Ok ["/path/to/file1"; "/path/to/file2"]) /\
  get string literal_compile literal_match "file1" ["Games"] get_world =
    (get_world, Ok []).
Proof.
  assert (Hdb : files get_world !! ".catodb" =
            Some (Reg (lines2 "/path/to/file1|Books,Movies|2023-07-01T00:00:00Z"
                              "/path/to/file2|Music,Games|2023-07-01T00:00:00Z")))
    by reflexivity.
  split; [| split].
  - exact (proj1 (get_returns_selected_paths string literal_compile literal_match
                    "file1" ["Books"] get_world _ "file1" Hdb eq_refl) lines_fit_registry).
  - exact (proj1 (get_returns_selected_paths string literal_compile literal_match
                    "file" [] get_world _ "file" Hdb eq_refl) lines_fit_registry).
  - exact (proj1 (get_returns_selected_paths string literal_compile literal_match
                    "file1" ["Games"] get_world _ "file1" Hdb eq_refl) lines_fit_registry).
Defined.


Lemma missing_registry_is_an_error_witness :
  files no_registry_world !! ".catodb" = None /\
  registerFile example_clock "test_register_file.txt" ["Books"; "Movies"] true
    no_registry_world =
    (tick no_registry_world,
     Err (Errorf_w "failed to open .catodb for writing" (PathError "open" ".catodb" ENOENT))) /\
  get string literal_compile literal_match "file1" ["Books"] no_registry_world =
    (no_registry_world, Err (errors_New "file does not exist")).
Proof.
  assert (Hnodb : files no_registry_world !! ".catodb" = None) by reflexivity.
  assert (Hsubject : files no_registry_world !! "test_register_file.txt" =
                     Some (Reg (lines2 "Books" "Movies"))) by reflexivity.
  split; [exact Hnodb |].
  destruct (missing_registry_is_an_error string literal_compile literal_match example_clock
              "test_register_file.txt" ["Books"; "Movies"] true "file1" ["Books"]
              no_registry_world Hnodb) as (_ & Hreg & Hget).
  split; [exact (Hreg _ Hsubject) | exact Hget].
Defined.

Lemma missing_registry_no_snapshot_witness :
  files no_registry_world !! ".catodb" = None /\
  exists w' e,
    registerFile example_clock "test_register_file.txt" ["Books"; "Movies"] true
      no_registry_world = (w', Err e) /\
    files w' = files no_registry_world /\
    files w' !! "test_register_file.txt.copy" = None.
Proof.
  assert (Hnodb : files no_registry_world !! ".catodb" = None) by reflexivity.
  split; [exact Hnodb |].
  destruct (missing_registry_no_snapshot example_clock "test_register_file.txt"
              ["Books"; "Movies"] no_registry_world Hnodb) as (w' & e & Hr & Hf & Hc).
  exists w', e. split; [exact Hr |]. split; [exact Hf |].
  rewrite Hf. reflexivity.
Defined.

Lemma registerFiles_fail_fast_witness :
  registerFiles string literal_compile literal_match example_clock (fun _ _ => folder_visits)
    "test_folder" "(" folder_world = (folder_world, Err (regexp_Error "(")) /\
  (exists w', registerFiles string literal_compile literal_match example_clock
                (fun _ _ => folder_visits) "test_folder" "txt" folder_world =
              (w', Ok ["test_folder/file1.txt"; "test_folder/file2.txt"]) /\
              files w' !! ".catodb" =
                Some (Reg (lines2 "test_folder/file1.txt|Books,Movies|2023-07-01T00:00:00Z"
                                  "test_folder/file2.txt|Music,Games|2023-07-01T00:00:01Z")) /\
              files w' !! "test_folder/file2.txt.copy" = Some (Reg (lines2 "Music" "Games"))) /\
  (exists w', registerFiles string literal_compile literal_match example_clock
                (fun _ _ => broken_visits) "test_folder" "txt" folder_world =
              (w', Err (walk_Error "lstat test_folder/file2.txt: permission denied")) /\
              files w' !! ".catodb" =
                Some (Reg ("test_folder/file1.txt|Books,Movies|2023-07-01T00:00:00Z" +:+ newline))).
Proof.
  split; [| split].
  - exact (proj1 (registerFiles_fail_fast string literal_compile literal_match example_clock
                    (fun _ _ => folder_visits) "test_folder" "(" folder_world) _ eq_refl).
  - destruct (registerFiles_fail_fast string literal_compile literal_match example_clock
                (fun _ _ => folder_visits) "test_folder" "txt" folder_world)
      as (_ & _ & Hok & _).
    eexists. split.
    + apply (Hok "txt"); [reflexivity |].
      apply bulk_pass; [reflexivity |].
      eapply bulk_register;
        [reflexivity | vm_compute; reflexivity | vm_compute; reflexivity |].
      eapply bulk_register;
        [reflexivity | vm_compute; reflexivity | vm_compute; reflexivity |].
      apply bulk_done.
    + split; reflexivity.
  - destruct (registerFiles_fail_fast string literal_compile literal_match example_clock
                (fun _ _ => broken_visits) "test_folder" "txt" folder_world)
      as (_ & Hfail & _).
    eexists. split.
    + eapply (Hfail "txt" [Entry "test_folder" (mkInfo "test_folder" true);
                           Entry "test_folder/file1.txt" (mkInfo "file1.txt" false)]
               (Failed "test_folder/file2.txt"
                  (walk_Error "lstat test_folder/file2.txt: permission denied")) []);
        [reflexivity | reflexivity | | apply fails_traversal].
      apply bulk_pass; [reflexivity |].
      eapply bulk_register;
        [reflexivity | vm_compute; reflexivity | vm_compute; reflexivity |].
      apply bulk_done.
    + reflexivity.
Defined.

(** ** The further theorems at concrete inputs *)

Lemma listing_there :
  files listing_world !! "test_delete_category.txt" =
  Some (Reg ("Books" +:+ newline +:+ "Movies" +:+ newline +:+ "Music" +:+ newline)).
Proof. reflexivity. Defined.

Lemma listing_cr_free :
  Forall cr_free (lines_of ("Books" +:+ newline +:+ "Movies" +:+ newline +:+ "Music" +:+ newline)).
Proof. repeat constructor. Defined.


Lemma readFile_outcomes_witness :
  readFile "test_delete_category.txt" listing_world =
    (listing_world, Ok ["Books"; "Movies"; "Music"]) /\
  readFile "missing.txt" listing_world =
    (listing_world, Err (PathError "open" "missing.txt" ENOENT)).
Proof.
  assert (Hmissing : files listing_world !! "missing.txt" = None) by reflexivity.
  split.
  - exact (proj1 (proj2 (proj2 (readFile_outcomes "test_delete_category.txt" listing_world)))
             _ listing_there lines_fit_listing).
  - exact (proj1 (readFile_outcomes "missing.txt" listing_world) Hmissing).
Defined.


Lemma DeleteCategory_follows_readFile_witness :
  DeleteCategory "Movies" "test_delete_category.txt" listing_world =
    (set_files listing_world
       (<["test_delete_category.txt" := Reg (lines2 "Books" "Music")]> (files listing_world)),
     Ok true) /\
  DeleteCategory "Movies" "missing.txt" listing_world =
    (listing_world, Err (errors_New "file does not exist")).
Proof.
  assert (Hread : readFile "test_delete_category.txt" listing_world =
                  (listing_world, Ok ["Books"; "Movies"; "Music"]))
    by (vm_compute; reflexivity).
  assert (Hfail : readFile "missing.txt" listing_world =
                  (listing_world, Err (PathError "open" "missing.txt" ENOENT)))
    by (vm_compute; reflexivity).
  split.
  - exact (proj1 (DeleteCategory_follows_readFile "Movies" "test_delete_category.txt"
                    listing_world) _ _ Hread).
  - exact (proj2 (DeleteCategory_follows_readFile "Movies" "missing.txt" listing_world)
             _ _ Hfail).
Defined.

Lemma DeleteCategory_then_readFile_witness :
  exists w1,
    DeleteCategory "Movies" "test_delete_category.txt" listing_world = (w1, Ok true) /\
    readFile "test_delete_category.txt" w1 = (w1, Ok ["Books"; "Music"]) /\
    "Movies" ∉ ["Books"; "Music"].
Proof.
  exact (DeleteCategory_then_readFile "Movies" "test_delete_category.txt" listing_world _
           listing_there lines_fit_listing listing_cr_free).
Defined.

Lemma DeleteCategory_twice_witness :
  exists w1,
    DeleteCategory "Movies" "test_delete_category.txt" listing_world = (w1, Ok true) /\
    DeleteCategory "Movies" "test_delete_category.txt" w1 = (w1, Ok true).
Proof.
  exact (DeleteCategory_twice "Movies" "test_delete_category.txt" listing_world _
           listing_there lines_fit_listing listing_cr_free).
Defined.

Lemma DeleteCategory_keeps_double_CR_witness :
  exists w1,
    DeleteCategory "Movies" "listing"
      (mkWorld (<["listing" := Reg (("Movies" +:+ String CR (String CR "")) +:+ newline)]> ∅) 0) =
      (w1, Ok true) /\
    files w1 !! "listing" = Some (Reg (("Movies" +:+ String CR "") +:+ newline)) /\
    readFile "listing" w1 = (w1, Ok ["Movies"]).
Proof.
  assert (Hthere : files (mkWorld (<["listing" :=
                      Reg (("Movies" +:+ String CR (String CR "")) +:+ newline)]> ∅) 0)
                     !! "listing" =
                   Some (Reg (("Movies" +:+ String CR (String CR "")) +:+ newline)))
    by reflexivity.
  assert (Hlen : (lenN "Movies" + 2 < MaxScanTokenSize)%N) by reflexivity.
  exact (DeleteCategory_keeps_double_CR "Movies" "listing" _ eq_refl eq_refl Hlen Hthere).
Defined.


(** A directory is registered when no snapshot is asked for. *)
Lemma registerFile_succeeds_iff_witness :
  (exists w', registerFile example_clock "test_folder" ["Books"] false folder_world =
              (w', Ok true)) /\
  ~ (exists w', registerFile example_clock "test_folder" ["Books"] true folder_world =
                (w', Ok true)).
Proof.
  assert (Hdir : files folder_world !! "test_folder" = Some Dir) by reflexivity.
  assert (Hdb : files folder_world !! ".catodb" = Some (Reg "")) by reflexivity.
  split.
  - apply (proj2 (registerFile_succeeds_iff example_clock "test_folder" ["Books"] false
                    folder_world)).
    split; [| now exists ""]. exists Dir. split; [exact Hdir | discriminate].
  - intros Hok.
    apply (proj1 (registerFile_succeeds_iff example_clock "test_folder" ["Books"] true
                    folder_world)) in Hok.
    destruct Hok as ((n & Hn & Hcopy) & _). destruct (Hcopy eq_refl) as ((data & ->) & _).
    rewrite Hdir in Hn. discriminate.
Defined.

Lemma registerFile_effect_witness :
  exists w',
    registerFile example_clock "test_register_file.txt" ["Books"; "Movies"] true
      register_world = (w', Ok true) /\
    ticks w' = 1%nat /\
    files w' !! ".catodb" =
      Some (Reg ("" +:+ ("test_register_file.txt" +:+ "|" +:+
                         String.concat "," ["Books"; "Movies"] +:+ "|" +:+
                         Format_RFC3339 (example_clock 0)) +:+ newline)) /\
    files w' !! "test_register_file.txt.copy" = Some (Reg (lines2 "Books" "Movies")).
Proof.
  assert (Hrun : { w' | registerFile example_clock "test_register_file.txt"
                          ["Books"; "Movies"] true register_world = (w', Ok true) })
    by (eexists; vm_compute; reflexivity).
  destruct Hrun as [w' Hrun]. exists w'. split; [exact Hrun |].
  destruct (registerFile_effect example_clock _ _ _ _ _ _ Hrun)
    as (_ & Hticks & db & Hdb & Hdb' & Hcopy).
  split; [exact Hticks |].
  assert (db = "") as -> by (vm_compute in Hdb; now injection Hdb as <-).
  split; [exact Hdb' |].
  destruct (Hcopy eq_refl) as (data & Hdata & Hsnap).
  assert (data = lines2 "Books" "Movies") as -> by (vm_compute in Hdata; now injection Hdata as <-).
  exact Hsnap.
Defined.


Lemma format_three_fields_witness :
  exists line,
    format example_clock "/path/to/file" ["Books"; "Movies"] "" (mkWorld ∅ 0) =
      (tick (mkWorld ∅ 0), Ok line) /\
    Split "|" line = ["/path/to/file"; "Books,Movies"; "2023-07-01T00:00:00Z"].
Proof.
  apply (format_three_fields example_clock "/path/to/file" ["Books"; "Movies"] (mkWorld ∅ 0)).
  - reflexivity.
  - repeat constructor.
  - apply example_clock_valid.
Defined.

Lemma format_single_line_witness :
  exists line,
    format example_clock "/path/to/file" ["Books"; "Movies"] "#" (mkWorld ∅ 0) =
      (tick (mkWorld ∅ 0), Ok line) /\
    has_byte LF line = false /\
    ScanLines (line +:+ newline) = [line].
Proof.
  apply (format_single_line example_clock "/path/to/file" ["Books"; "Movies"] "#"
           (mkWorld ∅ 0)).
  - reflexivity.
  - repeat constructor.
  - reflexivity.
  - apply example_clock_valid.
Defined.

Lemma TestFormat_check_always_holds_witness :
  exists line,
    format example_clock "/path/to/file" ["Books"; "Movies"] "#" (mkWorld ∅ 0) =
      (tick (mkWorld ∅ 0), Ok line) /\
    matchesFormat line "/path/to/file#Books,Movies#" = true.
Proof.
  exact (proj2 (TestFormat_check_always_holds example_clock "/path/to/file"
                  ["Books"; "Movies"] "#" (mkWorld ∅ 0))).
Defined.

Lemma get_reads_only_and_sound_witness :
  Forall (fun p => literal_match "file1" p = true /\ has_byte "|" p = false)
    ["/path/to/file1"].
Proof.
  assert (Hrun : get string literal_compile literal_match "file1" ["Books"] get_world =
                 (get_world, Ok ["/path/to/file1"])) by (vm_compute; reflexivity).
  exact (proj2 (get_reads_only_and_sound string literal_compile literal_match
                  "file1" ["Books"] get_world) _ _ "file1" Hrun eq_refl).
Defined.

Lemma get_requires_more_returns_less_witness :
  exists ps1,
    get string literal_compile literal_match "file" ["Books"] get_world =
      (get_world, Ok ps1) /\
    sublist ps1 ["/path/to/file1"; "/path/to/file2"].
Proof.
  assert (Hsub : forall c : string, c ∈ [] -> c ∈ ["Books"]).
  { intros c Hc. apply elem_of_nil in Hc. destruct Hc. }
  assert (Hrun : get string literal_compile literal_match "file" [] get_world =
                 (get_world, Ok ["/path/to/file1"; "/path/to/file2"]))
    by (vm_compute; reflexivity).
  exact (proj1 (get_requires_more_returns_less string literal_compile literal_match
                  "file" ["Books"] [] get_world Hsub) _ Hrun).
Defined.

Lemma containsAll_is_set_inclusion_witness :
  containsAll ["Books"; "Movies"; "Music"] ["Music"] = true.
Proof.
  destruct containsAll_is_set_inclusion as (_ & _ & Htrans & _).
  apply (Htrans _ ["Movies"; "Music"]); reflexivity.
Defined.

Lemma DeleteCategory_absent_label_changes_nothing_witness :
  DeleteCategory "NonExistent" "test_delete_category.txt" listing_world =
    (listing_world, Ok true).
Proof.
  apply (DeleteCategory_absent_label_changes_nothing _ _ _ _ listing_there lines_fit_listing).
  - right. reflexivity.
  - repeat constructor.
  - intros Hin. simpl in Hin.
    repeat (apply elem_of_cons in Hin as [Hin|Hin]; [discriminate |]).
    now apply elem_of_nil in Hin.
Defined.

Lemma registerFile_then_get_witness :
  exists w1 before,
    get string literal_compile literal_match "register" ["Books"] register_world =
      (register_world, Ok before) /\
    registerFile example_clock "test_register_file.txt" ["Books"; "Movies"] true
      register_world = (w1, Ok true) /\
    get string literal_compile literal_match "register" ["Books"] w1 =
      (w1, Ok (before ++ ["test_register_file.txt"])).
Proof.
  assert (Hsubject : files register_world !! "test_register_file.txt" =
                     Some (Reg (lines2 "Books" "Movies"))) by reflexivity.
  assert (Hdb : files register_world !! ".catodb" = Some (Reg "")) by reflexivity.
  assert (Hdst : true = true ->
                 files register_world !! ("test_register_file.txt" +:+ ".copy") <> Some Dir)
    by (intros _; discriminate).
  assert (Hlen : (lenN ("test_register_file.txt" +:+ "|" +:+
                        String.concat "," ["Books"; "Movies"] +:+ "|" +:+
                        Format_RFC3339 (example_clock (ticks register_world))) <
                  MaxScanTokenSize)%N) by reflexivity.
  apply (registerFile_then_get string literal_compile literal_match example_clock
           "test_register_file.txt" ["Books"; "Movies"] true "register" ["Books"] "register"
           register_world _ "" Hsubject Hdb Hdst).
  - now left.
  - constructor.
  - reflexivity.
  - reflexivity.
  - discriminate.
  - repeat constructor.
  - repeat constructor.
  - apply example_clock_valid.
  - exact Hlen.
  - reflexivity.
Defined.



Lemma registerFiles_snapshots_witness :
  exists w',
    registerFiles string literal_compile literal_match example_clock
      (fun _ _ => folder_visits) "test_folder" "txt" folder_world =
      (w', Ok ["test_folder/file1.txt"; "test_folder/file2.txt"]) /\
    (exists d, files w' !! ("test_folder/file2.txt" +:+ ".copy") = Some (Reg d)).
Proof.
  assert (Hrun : { w' | registerFiles string literal_compile literal_match example_clock
                          (fun _ _ => folder_visits) "test_folder" "txt" folder_world =
                        (w', Ok ["test_folder/file1.txt"; "test_folder/file2.txt"]) })
    by (eexists; vm_compute; reflexivity).
  destruct Hrun as [w' Hrun]. exists w'. split; [exact Hrun |].
  apply (proj1 (registerFiles_snapshots string literal_compile literal_match example_clock
                  (fun _ _ => folder_visits) "test_folder" "txt" folder_world w' _ Hrun)
           "test_folder/file2.txt").
  apply list_elem_of_further, list_elem_of_here.
Defined.
